(** * posture_ai: posture classification, alert timers and session scoring

    A shallow embedding of the Python sources

    - [configure_setting.py]          (module [config])
    - [posture_core.py]               (module [posture_core])
    - [features.py]                   (module [features])
    - [main.py]                       (module [main])
    - [posture_test_initial_work.py]  (module [initial_work], the single-file
                                       variant of the same program)

    Conventions of the embedding.

    - Python floats that carry angles and landmark coordinates are real
      numbers ([R]); [math.atan2] is the principal-value two-argument
      arctangent.  Python floats that carry wall-clock readings and the
      session score are rationals ([Q]), so that the timers and the score
      can be run on concrete inputs.
    - The status strings "GOOD", "FAIR", "BAD", "UNKNOWN" are the
      constructors of [Status].
    - [time.time()] is a parameter [now] of every operation that reads the
      clock; all reads made during one call see the same instant.
    - A raised exception is the [Raise] branch of [result].
    - Objects mutated in place ([AlertManager], [BreakReminder],
      [SessionLogger], the baseline file) are passed in and returned. *)

From Stdlib Require Import Reals Psatz ZArith QArith Qround Qabs List Bool.
Import ListNotations.

(* ================================================================== *)
(** * Common data *)

(** The posture tier, a string in the source. *)
Inductive Status : Type := GOOD | FAIR | BAD | UNKNOWN.

Definition Status_eqb (s t : Status) : bool :=
  match s, t with
  | GOOD, GOOD | FAIR, FAIR | BAD, BAD | UNKNOWN, UNKNOWN => true
  | _, _ => false
  end.

(** Exceptions the modelled code can raise. *)
Inductive PyExc : Type := IndexError | ValueError.

Inductive result (A : Type) : Type :=
| Return (a : A)
| Raise (e : PyExc).
Arguments Return {A} a.
Arguments Raise {A} e.

Definition bind {A B : Type} (m : result A) (k : A -> result B) : result B :=
  match m with
  | Return a => k a
  | Raise e => Raise e
  end.

Notation "x <- m ;; k" := (bind m (fun x => k))
  (at level 61, m at next level, right associativity).

(** [xs[i]] for a non-negative literal index. *)
Definition getitem {A : Type} (xs : list A) (i : nat) : result A :=
  match nth_error xs i with
  | Some a => Return a
  | None => Raise IndexError
  end.

(** MediaPipe's pose output: a landmark and the landmark list object. *)
Module mp.
Record Landmark : Type := { x : R; y : R; z : R; visibility : R }.
Record PoseLandmarks : Type := { landmark : list Landmark }.
(** The members of [mp_pose.PoseLandmark] the program reads. *)
Record PoseLandmark : Type :=
  { LEFT_EAR : nat; LEFT_SHOULDER : nat; LEFT_HIP : nat }.
End mp.

(** The calibration record (a dict in the source, a JSON object on disk). *)
Record Baseline : Type := {
  good_angle : R;
  tolerance : R;
  samples : nat;
  min_angle : R;
  max_angle : R
}.

(* ================================================================== *)
(** * configure_setting.py *)

Module config.
Definition GOOD_ANGLE : Z := 170.
Definition FAIR_ANGLE : Z := 160.
Definition BAD_DURATION : Z := 180.
Definition ALERT_COOLDOWN : Z := 300.
Definition BREAK_INTERVAL : Z := 1800.
Definition RECORD_EVERY : Z := 5.
End config.

(* ================================================================== *)
(** * math.atan2 and round on the reals *)

Section RealLibrary.
Local Open Scope R_scope.

(** [math.atan2(y, x)]: the angle of the vector (x, y), in (-PI, PI],
    with [atan2(0, 0) = 0]. *)
Definition atan2 (y x : R) : R :=
  if Rlt_dec 0 x then atan (y / x)
  else if Rlt_dec x 0 then
    if Rle_dec 0 y then atan (y / x) + PI else atan (y / x) - PI
  else if Rlt_dec 0 y then PI / 2
  else if Rlt_dec y 0 then - PI / 2
  else 0.

(** Nearest integer, ties to the even one. *)
Definition round_half_even (r : R) : Z :=
  let n := Int_part r in
  let f := r - IZR n in
  if Rlt_dec f (1 / 2) then n
  else if Rlt_dec (1 / 2) f then (n + 1)%Z
  else if Z.even n then n else (n + 1)%Z.

(** [round(r, ndigits)] for a non-negative [ndigits]. *)
Definition round (r : R) (ndigits : nat) : R :=
  IZR (round_half_even (r * 10 ^ ndigits)) / 10 ^ ndigits.
End RealLibrary.

(* ================================================================== *)
(** * posture_core.py *)

Module posture_core.
Local Open Scope R_scope.

(** ** class PostureAnalyzer *)

Module PostureAnalyzer.

(** The only attribute is the optional baseline. *)
Record t : Type := { baseline : option Baseline }.

(** [PostureAnalyzer.__init__] *)
Definition __init__ (baseline : option Baseline) : t :=
  {| baseline := baseline |}.

(** [PostureAnalyzer._calculate_angle] *)
Definition _calculate_angle (a b c : mp.Landmark) : R :=
  let radians := atan2 (mp.y c - mp.y b) (mp.x c - mp.x b)
                 - atan2 (mp.y a - mp.y b) (mp.x a - mp.x b) in
  let angle := Rabs (radians * 180 / PI) in
  if Rlt_dec 180 angle then 360 - angle else angle.

(** The threshold selection of [analyze] (lines 92-97): the pair
    [(good_threshold, fair_threshold)]. *)
Definition thresholds (self : t) : R * R :=
  match baseline self with
  | Some b => (good_angle b - 10, good_angle b - 20)
  | None => (IZR config.GOOD_ANGLE, IZR config.FAIR_ANGLE)
  end.

(** The decision chain of [analyze] (lines 99-104). *)
Definition classify (angle good_threshold fair_threshold : R) : Status :=
  if Rge_dec angle good_threshold then GOOD
  else if Rge_dec angle fair_threshold then FAIR
  else BAD.

(** [PostureAnalyzer.analyze] *)
Definition analyze (self : t) (pose_landmarks : mp.PoseLandmarks)
  : result (Status * R) :=
  let landmarks := mp.landmark pose_landmarks in
  ear <- getitem landmarks 17 ;;
  shoulder <- getitem landmarks 11 ;;
  hip <- getitem landmarks 23 ;;
  let angle := _calculate_angle ear shoulder hip in
  let '(good_threshold, fair_threshold) := thresholds self in
  Return (classify angle good_threshold fair_threshold, angle).
End PostureAnalyzer.

(** One iteration of the capture loops: [cap.read()] fails, or it delivers
    a frame in which [PoseDetector.detect] finds a pose or nothing, and
    after which [cv2.waitKey] reports whether 'q' was pressed. *)
Inductive Capture : Type :=
| ReadFailed
| Frame (pose_landmarks : option mp.PoseLandmarks) (key_q : bool).

(** What is stored under the name [user_baseline.json]. *)
Inductive BaselineFile : Type :=
| Absent
| Json (b : Baseline)
| Malformed.

(** [sum(angles)], [min(angles)], [max(angles)] *)
Definition sum (xs : list R) : R := fold_left Rplus xs 0.

Definition min (xs : list R) : result R :=
  match xs with
  | [] => Raise ValueError
  | x :: rest => Return (fold_left Rmin rest x)
  end.

Definition max (xs : list R) : result R :=
  match xs with
  | [] => Raise ValueError
  | x :: rest => Return (fold_left Rmax rest x)
  end.

(** The observation loop of [calibrate_user] (lines 153-186).  [captures]
    lists the iterations that start before [duration] seconds have passed;
    the loop also ends at the first frame after which 'q' is pressed. *)
Fixpoint calibrate_collect (analyzer : PostureAnalyzer.t)
    (captures : list Capture) (angles : list R) : result (list R) :=
  match captures with
  | [] => Return angles
  | ReadFailed :: rest => calibrate_collect analyzer rest angles
  | Frame pose_landmarks key_q :: rest =>
      angles' <- match pose_landmarks with
                 | Some pl =>
                     r <- PostureAnalyzer.analyze analyzer pl ;;
                     Return (angles ++ [snd r])
                 | None => Return angles
                 end ;;
      if key_q then Return angles'
      else calibrate_collect analyzer rest angles'
  end.

(** [calibrate_user]: the result and the baseline file afterwards. *)
Definition calibrate_user (captures : list Capture) (file : BaselineFile)
  : result (option Baseline) * BaselineFile :=
  match calibrate_collect (PostureAnalyzer.__init__ None) captures [] with
  | Raise e => (Raise e, file)
  | Return angles =>
      if (length angles <? 50)%nat then (Return None, file)
      else
        match min angles, max angles with
        | Return lo, Return hi =>
            let avg_angle := sum angles / INR (length angles) in
            let b := {| good_angle := avg_angle;
                        tolerance := 10;
                        samples := length angles;
                        min_angle := lo;
                        max_angle := hi |} in
            (Return (Some b), Json b)
        | Raise e, _ | _, Raise e => (Raise e, file)
        end
  end.

(** [load_baseline] *)
Definition load_baseline (file : BaselineFile) : option Baseline :=
  match file with
  | Json b => Some b
  | Absent | Malformed => None
  end.
End posture_core.

(* ================================================================== *)
(** * round on the rationals *)

Section RationalLibrary.
Local Open Scope Q_scope.

(** Nearest integer, ties to the even one. *)
Definition round_half_even_Q (q : Q) : Z :=
  let n := Qfloor q in
  match Qcompare (q - inject_Z n) (1 # 2) with
  | Lt => n
  | Gt => (n + 1)%Z
  | Eq => if Z.even n then n else (n + 1)%Z
  end.

(** [round(q, ndigits)] for a non-negative [ndigits], in lowest terms. *)
Definition round_Q (q : Q) (ndigits : nat) : Q :=
  let scale := inject_Z (10 ^ Z.of_nat ndigits) in
  Qred (inject_Z (round_half_even_Q (q * scale)) / scale).
End RationalLibrary.

(* ================================================================== *)
(** * features.py *)

Module features.
Local Open Scope Q_scope.

(** A request handed to [plyer.notification.notify]. *)
Inductive Notification : Type :=
| PostureAlert (duration : Q)
| BreakTime.

(** ** class AlertManager *)

Module AlertManager.

Record t : Type := {
  bad_start : option Q;
  last_alert : option Q;
  alert_count : Z
}.

(** [AlertManager.__init__] *)
Definition __init__ : t :=
  {| bad_start := None; last_alert := None; alert_count := 0 |}.

(** [AlertManager.check], with the notifications it requests. *)
Definition check (now : Q) (status : Status) (self : t)
  : t * list Notification :=
  if Status_eqb status BAD then
    let start := match bad_start self with
                 | None => now
                 | Some started => started
                 end in
    let self1 := {| bad_start := Some start;
                    last_alert := last_alert self;
                    alert_count := alert_count self |} in
    let duration := now - start in
    if Qle_bool (inject_Z config.BAD_DURATION) duration then
      if match last_alert self1 with
         | None => true
         | Some last =>
             Qle_bool (inject_Z config.ALERT_COOLDOWN) (now - last)
         end
      then
        ({| bad_start := bad_start self1;
            last_alert := Some now;
            alert_count := alert_count self1 + 1 |},
         [PostureAlert duration])
      else (self1, [])
    else (self1, [])
  else
    ({| bad_start := None;
        last_alert := last_alert self;
        alert_count := alert_count self |}, []).

(** The dict of [AlertManager.get_stats]. *)
Record Stats : Type := {
  total_alerts : Z;
  currently_bad : bool;
  bad_duration : Q
}.

(** [AlertManager.get_stats]; the test [if self.bad_start] is false for
    None and for a timestamp equal to 0. *)
Definition get_stats (now : Q) (self : t) : Stats :=
  {| total_alerts := alert_count self;
     currently_bad := match bad_start self with
                      | Some _ => true
                      | None => false
                      end;
     bad_duration := match bad_start self with
                     | Some started =>
                         if Qeq_bool started 0 then 0 else now - started
                     | None => 0
                     end |}.

End AlertManager.

(** ** class BreakReminder *)

Module BreakReminder.

Record t : Type := {
  last_break : Q;
  break_count : Z
}.

(** [BreakReminder.__init__] *)
Definition __init__ (now : Q) : t :=
  {| last_break := now; break_count := 0 |}.

(** [BreakReminder.check] *)
Definition check (now : Q) (self : t) : t * list Notification :=
  if Qle_bool (inject_Z config.BREAK_INTERVAL) (now - last_break self) then
    ({| last_break := now; break_count := break_count self + 1 |}, [BreakTime])
  else (self, []).

(** The dict of [BreakReminder.get_stats]. *)
Record Stats : Type := {
  total_breaks : Z;
  time_until_next_break : Q
}.

(** [BreakReminder.get_stats] *)
Definition get_stats (now : Q) (self : t) : Stats :=
  let time_until_break :=
    inject_Z config.BREAK_INTERVAL - (now - last_break self) in
  {| total_breaks := break_count self;
     time_until_next_break :=
       if Qle_bool time_until_break 0 then 0 else time_until_break |}.

End BreakReminder.

(** ** class SessionLogger *)

(** One element of [self.log] (a dict in the source). *)
Record LogEntry : Type := {
  timestamp : Q;
  status : Status;
  angle : R
}.

(** [sum(1 for x in self.log if x['status'] == s)] *)
Definition count_status (s : Status) (entries : list LogEntry) : Z :=
  Z.of_nat (length (filter (fun x => Status_eqb (status x) s) entries)).

Module SessionLogger.

Record t : Type := {
  log : list LogEntry;
  session_start : Q;
  last_record : Q
}.

(** [SessionLogger.__init__] *)
Definition __init__ (now : Q) : t :=
  {| log := []; session_start := now; last_record := now |}.

(** [SessionLogger.record] *)
Definition record (now : Q) (status : Status) (angle : R) (self : t) : t :=
  if Qle_bool (inject_Z config.RECORD_EVERY) (now - last_record self) then
    {| log := log self ++ [ {| timestamp := now;
                               status := status;
                               angle := round angle 2 |} ];
       session_start := session_start self;
       last_record := now |}
  else self.

(** [SessionLogger.get_score] *)
Definition get_score (self : t) : Q :=
  match log self with
  | [] => 0
  | _ :: _ =>
      let good := count_status GOOD (log self) in
      let fair := count_status FAIR (log self) in
      let bad := count_status BAD (log self) in
      let total := Z.of_nat (length (log self)) in
      let score := inject_Z (good * 100 + fair * 60 + bad * 20)
                   / inject_Z total in
      round_Q score 1
  end.

(** The dict of [SessionLogger.get_summary]; the three counts are present
    only for a non-empty log. *)
Record Summary : Type := {
  duration : Q;
  data_points : Z;
  score : Q;
  good_percent : Q;
  fair_percent : Q;
  bad_percent : Q;
  good_count : option Z;
  fair_count : option Z;
  bad_count : option Z
}.

(** [SessionLogger.get_summary] *)
Definition get_summary (now : Q) (self : t) : Summary :=
  match log self with
  | [] =>
      {| duration := 0; data_points := 0; score := 0;
         good_percent := 0; fair_percent := 0; bad_percent := 0;
         good_count := None; fair_count := None; bad_count := None |}
  | _ :: _ =>
      let good := count_status GOOD (log self) in
      let fair := count_status FAIR (log self) in
      let bad := count_status BAD (log self) in
      let total := Z.of_nat (length (log self)) in
      let duration := now - session_start self in
      {| duration := duration;
         data_points := total;
         score := get_score self;
         good_percent := round_Q (inject_Z good / inject_Z total * 100) 1;
         fair_percent := round_Q (inject_Z fair / inject_Z total * 100) 1;
         bad_percent := round_Q (inject_Z bad / inject_Z total * 100) 1;
         good_count := Some good;
         fair_count := Some fair;
         bad_count := Some bad |}
  end.
End SessionLogger.
End features.

(* ================================================================== *)
(** * main.py *)

Module main.
Import features.

(** The three stateful components that [main_loop] drives. *)
Record Monitors : Type := {
  alerts : AlertManager.t;
  breaks : BreakReminder.t;
  logger : SessionLogger.t
}.

(** What one iteration hands to [display_ui]. *)
Record Display : Type := {
  shown_status : Status;
  shown_angle : R;
  shown_score : Q
}.

(** Lines 174-196 of [main_loop]: detection result to display values.
    An exception of [analyze] leaves the loop through the handler of
    line 216; the components keep what they held. *)
Definition main_loop_body (analyzer : posture_core.PostureAnalyzer.t)
    (now : Q) (pose_landmarks : option mp.PoseLandmarks) (m : Monitors)
  : result (Monitors * list Notification * Display) :=
  let score := SessionLogger.get_score (logger m) in
  match pose_landmarks with
  | Some pl =>
      r <- posture_core.PostureAnalyzer.analyze analyzer pl ;;
      let '(status, angle) := r in
      let '(alerts', sent1) := AlertManager.check now status (alerts m) in
      let '(breaks', sent2) := BreakReminder.check now (breaks m) in
      let logger' := SessionLogger.record now status angle (logger m) in
      let score := SessionLogger.get_score logger' in
      Return ({| alerts := alerts'; breaks := breaks'; logger := logger' |},
              sent1 ++ sent2,
              {| shown_status := status; shown_angle := angle;
                 shown_score := score |})
  | None =>
      Return (m, [],
              {| shown_status := UNKNOWN; shown_angle := 0%R;
                 shown_score := score |})
  end.
End main.

(* ================================================================== *)
(** * posture_test_initial_work.py *)

Module initial_work.

Module Config.
Definition GOOD_POSTURE_ANGLE : Z := 170.
Definition FAIR_POSTURE_ANGLE : Z := 160.
Definition BAD_POSTURE_DURATION : Z := 180.
Definition ALERT_COOLDOWN : Z := 300.
Definition BREAK_REMINDER_INTERVAL : Z := 1800.
Definition LOG_INTERVAL : Z := 5.
End Config.

(** [calculate_angle] *)
Definition calculate_angle (a b c : mp.Landmark) : R :=
  let radians := (atan2 (mp.y c - mp.y b) (mp.x c - mp.x b)
                  - atan2 (mp.y a - mp.y b) (mp.x a - mp.x b))%R in
  let angle := Rabs (radians * 180 / PI) in
  if Rlt_dec 180 angle then (360 - angle)%R else angle.

(** Lines 77-96 of [check_posture]: the tier of an angle. *)
Definition tier (angle : R) (baseline : option Baseline) : Status :=
  match baseline with
  | Some b =>
      let good_threshold := (good_angle b - tolerance b)%R in
      let fair_threshold := (good_angle b - 20)%R in
      if Rgt_dec angle good_threshold then GOOD
      else if Rgt_dec angle fair_threshold then FAIR
      else BAD
  | None =>
      if Rgt_dec angle (IZR Config.GOOD_POSTURE_ANGLE) then GOOD
      else if Rgt_dec angle (IZR Config.FAIR_POSTURE_ANGLE) then FAIR
      else BAD
  end.

(** [check_posture]: every exception of the body is caught (line 98). *)
Definition check_posture (landmarks : list mp.Landmark)
    (mp_pose : mp.PoseLandmark) (baseline : option Baseline) : Status * R :=
  match
    ear <- getitem landmarks (mp.LEFT_EAR mp_pose) ;;
    shoulder <- getitem landmarks (mp.LEFT_SHOULDER mp_pose) ;;
    hip <- getitem landmarks (mp.LEFT_HIP mp_pose) ;;
    let angle := calculate_angle ear shoulder hip in
    Return (tier angle baseline, angle)
  with
  | Return r => r
  | Raise _ => (UNKNOWN, 0%R)
  end.

(** [calculate_session_score] over the statuses of the log entries. *)
Definition calculate_session_score (log_data : list Status) : Q :=
  match log_data with
  | [] => 0
  | _ :: _ =>
      let n s := Z.of_nat (length (filter (fun x => Status_eqb x s)
                                          log_data)) in
      let total := Z.of_nat (length log_data) in
      round_Q (inject_Z (n GOOD * 100 + n FAIR * 60 + n BAD * 20)
               / inject_Z total) 1
  end.

(** Lines 236-252 of [main]: the locals [bad_posture_start] and
    [last_alert_time], and whether a posture alert is sent. *)
Definition track_bad_posture (now : Q) (status : Status)
    (locals : option Q * option Q) : (option Q * option Q) * bool :=
  let '(bad_posture_start, last_alert_time) := locals in
  if Status_eqb status BAD then
    match bad_posture_start with
    | None => ((Some now, last_alert_time), false)
    | Some start =>
        let duration := (now - start)%Q in
        if negb (Qle_bool duration (inject_Z Config.BAD_POSTURE_DURATION)) then
          if match last_alert_time with
             | None => true
             | Some t =>
                 negb (Qle_bool (now - t) (inject_Z Config.ALERT_COOLDOWN))
             end
          then ((bad_posture_start, Some now), true)
          else (locals, false)
        else (locals, false)
    end
  else ((None, last_alert_time), false).

(** One row of [session_log]. *)
Record LogRow : Type := {
  row_timestamp : Q;
  row_status : Status;
  row_angle : R
}.

(** The locals of [main] that survive an iteration of its loop. *)
Record Locals : Type := {
  bad_posture_start : option Q;
  last_alert_time : option Q;
  last_log_time : Q;
  break_reminder_time : Q;
  session_log : list LogRow
}.

(** Lines 213-266 of [main]: one iteration from the detection result on,
    with the flags "posture alert sent" and "break reminder sent". *)
Definition main_iteration (mp_pose : mp.PoseLandmark)
    (baseline : option Baseline) (now : Q)
    (pose_landmarks : option mp.PoseLandmarks) (l : Locals)
  : Locals * (bool * bool) :=
  let '(l1, alert) :=
    match pose_landmarks with
    | Some pl =>
        let '(status, angle) :=
          check_posture (mp.landmark pl) mp_pose baseline in
        let '((start, last), alert) :=
          track_bad_posture now status
            (bad_posture_start l, last_alert_time l) in
        let logged :=
          negb (Qle_bool (now - last_log_time l)
                  (inject_Z Config.LOG_INTERVAL)) in
        ({| bad_posture_start := start;
            last_alert_time := last;
            last_log_time := if logged then now else last_log_time l;
            break_reminder_time := break_reminder_time l;
            session_log :=
              if logged
              then session_log l ++ [ {| row_timestamp := now;
                                         row_status := status;
                                         row_angle := round angle 1 |} ]
              else session_log l |}, alert)
    | None => (l, false)
    end in
  if negb (Qle_bool (now - break_reminder_time l1)
             (inject_Z Config.BREAK_REMINDER_INTERVAL))
  then ({| bad_posture_start := bad_posture_start l1;
           last_alert_time := last_alert_time l1;
           last_log_time := last_log_time l1;
           break_reminder_time := now;
           session_log := session_log l1 |}, (alert, true))
  else (l1, (alert, false)).
End initial_work.

(* ================================================================== *)
(** * Tick sequences for the timers *)

Section Ticks.
Local Open Scope Q_scope.
Import features features.AlertManager.

(** Statuses arriving one second apart, the first at [offset 0]. *)
Definition offsets (statuses : list Status) : list (Q * Status) :=
  combine (map (fun k => inject_Z (Z.of_nat k)) (seq 0 (length statuses)))
          statuses.

(** The same ticks, [d] seconds later. *)
Definition delay (d : Q) (ticks : list (Q * Status)) : list (Q * Status) :=
  map (fun tick => (fst tick + d, snd tick)) ticks.

(** Ticks at 1 Hz whose first one is at [0 + t0]. *)
Definition ticks_1hz (t0 : Q) (statuses : list Status) : list (Q * Status) :=
  delay t0 (offsets statuses).

(** Feed ticks to a timer; the flags tell at which ticks it sent something. *)
Fixpoint run_ticks {T : Type} (step : Q -> Status -> T -> T * bool)
    (ticks : list (Q * Status)) (timer : T) : T * list bool :=
  match ticks with
  | [] => (timer, [])
  | (now, status) :: rest =>
      let '(timer', sent) := step now status timer in
      let '(final, flags) := run_ticks step rest timer' in
      (final, sent :: flags)
  end.

(** [AlertManager.check] as a step: did it request a notification? *)
Definition alert_step (now : Q) (status : Status)
    (self : AlertManager.t) : AlertManager.t * bool :=
  let '(self', sent) := AlertManager.check now status self in
  (self', match sent with [] => false | _ :: _ => true end).

(** Every timestamp of an [AlertManager] moved [d] seconds later. *)
Definition shift (d : Q) (self : AlertManager.t)
  : AlertManager.t :=
  {| bad_start := option_map (fun t => t + d) (bad_start self);
     last_alert := option_map (fun t => t + d) (last_alert self);
     alert_count := alert_count self |}.

(** 179 BAD ticks, one GOOD tick, 181 BAD ticks. *)
Definition interrupted : list Status :=
  repeat BAD 179 ++ [GOOD] ++ repeat BAD 181.
End Ticks.

(* ================================================================== *)
(** * Landmarks moved in the image *)

(** The landmark [p] moved by [(dx, dy)] in the image plane, with another
    depth and visibility. *)
Definition move (dx dy depth vis : R) (p : mp.Landmark) : mp.Landmark :=
  {| mp.x := mp.x p + dx; mp.y := mp.y p + dy;
     mp.z := depth; mp.visibility := vis |}.

(** The landmark at [b] plus [k] times the step from [a] to [b]. *)
Definition beyond (k : R) (a b : mp.Landmark) : mp.Landmark :=
  {| mp.x := mp.x b + k * (mp.x b - mp.x a);
     mp.y := mp.y b + k * (mp.y b - mp.y a);
     mp.z := mp.z b; mp.visibility := mp.visibility b |}.

(* ================================================================== *)
(** * Runs of the break reminder and of the logger *)

Section Runs.
Local Open Scope Q_scope.
Import features.

(** Consecutive instants of [ts] are at least [gap] apart. *)
Fixpoint spaced (gap : Q) (ts : list Q) : bool :=
  match ts with
  | [] => true
  | t1 :: rest =>
      match rest with
      | [] => true
      | t2 :: _ => Qle_bool gap (t2 - t1) && spaced gap rest
      end
  end.

(** The instants of the ticks flagged by a run of [run_ticks]. *)
Fixpoint sent_times (ticks : list (Q * Status)) (flags : list bool)
  : list Q :=
  match ticks, flags with
  | (now, _) :: ticks', sent :: flags' =>
      if sent then now :: sent_times ticks' flags'
      else sent_times ticks' flags'
  | _, _ => []
  end.

(** How many ticks are flagged. *)
Definition count_sent (flags : list bool) : Z :=
  Z.of_nat (length (filter (fun sent => sent) flags)).

(** [BreakReminder.check] as a step; it does not look at the status. *)
Definition break_step (now : Q) (_ : Status) (self : BreakReminder.t)
  : BreakReminder.t * bool :=
  let '(self', sent) := BreakReminder.check now self in
  (self', match sent with [] => false | _ :: _ => true end).

(** Successive calls [logger.record(status, angle)], each with the clock
    reading at which it is made. *)
Fixpoint record_all (calls : list (Q * Status * R))
    (self : SessionLogger.t) : SessionLogger.t :=
  match calls with
  | [] => self
  | (now, status, angle) :: rest =>
      record_all rest (SessionLogger.record now status angle self)
  end.

(** The clock readings of those calls of [record_all] that make the log
    longer. *)
Fixpoint appended_at (calls : list (Q * Status * R))
    (self : SessionLogger.t) : list Q :=
  match calls with
  | [] => []
  | (now, status, angle) :: rest =>
      let self' := SessionLogger.record now status angle self in
      if (length (SessionLogger.log self)
          <? length (SessionLogger.log self'))%nat
      then now :: appended_at rest self'
      else appended_at rest self'
  end.
End Runs.

(* ================================================================== *)
(** * The weighted mean of a session log *)

(** (good_count*100 + fair_count*60 + bad_count*20) / total_count, the
    value that [get_score] rounds. *)
Definition weighted_mean (log : list features.LogEntry) : Q :=
  inject_Z (features.count_status GOOD log * 100
            + features.count_status FAIR log * 60
            + features.count_status BAD log * 20)
  / inject_Z (Z.of_nat (length log)).

(* ================================================================== *)
(** * Properties of the angle computation *)

Section AngleGeometry.
Local Open Scope R_scope.

Lemma atan_nonpos (t : R) : t <= 0 -> atan t <= 0.
Proof.
  intros [Hlt | Heq].
  - left. rewrite <- atan_0. now apply atan_increasing.
  - subst t. rewrite atan_0. apply Rle_refl.
Qed.

Lemma atan_pos (t : R) : 0 < t -> 0 < atan t.
Proof.
  intros Ht. rewrite <- atan_0. now apply atan_increasing.
Qed.

Lemma div_nonpos (y x : R) : 0 <= y -> x < 0 -> y / x <= 0.
Proof.
  intros Hy Hx. unfold Rdiv.
  assert (Hinv : / x < 0) by now apply Rinv_lt_0_compat.
  nra.
Qed.

Lemma div_neg_neg (y x : R) : y < 0 -> x < 0 -> 0 < y / x.
Proof.
  intros Hy Hx. unfold Rdiv.
  assert (Hinv : / x < 0) by now apply Rinv_lt_0_compat.
  nra.
Qed.

(** [math.atan2] returns an angle in (-PI, PI]. *)
Lemma atan2_bound (y x : R) : - PI < atan2 y x <= PI.
Proof.
  unfold atan2. pose proof PI_RGT_0 as HPI.
  pose proof (atan_bound (y / x)) as Hb.
  destruct (Rlt_dec 0 x) as [Hx | Hx]; [lra |].
  destruct (Rlt_dec x 0) as [Hx' | Hx'].
  - destruct (Rle_dec 0 y) as [Hy | Hy].
    + pose proof (atan_nonpos _ (div_nonpos y x Hy Hx')). lra.
    + assert (Hy' : y < 0) by lra.
      pose proof (atan_pos _ (div_neg_neg y x Hy' Hx')). lra.
  - destruct (Rlt_dec 0 y); [lra |].
    destruct (Rlt_dec y 0); lra.
Qed.

(** The degrees of a difference of two [atan2] values lie in (-360, 360). *)
Lemma degrees_of_difference (y1 x1 y2 x2 : R) :
  Rabs ((atan2 y1 x1 - atan2 y2 x2) * 180 / PI) < 360.
Proof.
  pose proof PI_RGT_0 as HPI.
  pose proof (atan2_bound y1 x1) as H1.
  pose proof (atan2_bound y2 x2) as H2.
  set (d := atan2 y1 x1 - atan2 y2 x2) in *.
  assert (Hd : - (2 * PI) < d < 2 * PI) by (unfold d; lra).
  apply Rabs_def1.
  - apply Rmult_lt_reg_r with PI; [exact HPI |].
    unfold Rdiv. rewrite Rmult_assoc, Rinv_l by lra. lra.
  - apply Rmult_lt_reg_r with PI; [exact HPI |].
    unfold Rdiv. rewrite Rmult_assoc, Rinv_l by lra. lra.
Qed.

(** C4.  For every three landmarks, [_calculate_angle] (the difference of
    two [atan2] values in degrees, its absolute value, and 360 minus that
    when it exceeds 180) returns a value in the closed interval [0, 180]. *)
Theorem calculate_angle_in_0_180 (a b c : mp.Landmark) :
  0 <= posture_core.PostureAnalyzer._calculate_angle a b c <= 180.
Proof.
  unfold posture_core.PostureAnalyzer._calculate_angle.
  set (y1 := mp.y c - mp.y b). set (x1 := mp.x c - mp.x b).
  set (y2 := mp.y a - mp.y b). set (x2 := mp.x a - mp.x b).
  pose proof (degrees_of_difference y1 x1 y2 x2) as Hlt.
  pose proof (Rabs_pos ((atan2 y1 x1 - atan2 y2 x2) * 180 / PI)) as Hge.
  destruct (Rlt_dec 180 _) as [Hbig | Hsmall]; lra.
Qed.

(** The single-file variant computes the same angle. *)
Lemma calculate_angle_same (a b c : mp.Landmark) :
  initial_work.calculate_angle a b c
  = posture_core.PostureAnalyzer._calculate_angle a b c.
Proof. reflexivity. Qed.
End AngleGeometry.

(* ================================================================== *)
(** * Properties of the classifier *)

Section Classifier.
Local Open Scope R_scope.
Import posture_core posture_core.PostureAnalyzer.

(** Both threshold selections of [analyze] give [good > fair]. *)
Lemma thresholds_ordered (self : PostureAnalyzer.t) :
  fst (thresholds self) > snd (thresholds self).
Proof.
  unfold thresholds. destruct (baseline self) as [b |]; simpl.
  - lra.
  - unfold config.GOOD_ANGLE, config.FAIR_ANGLE. lra.
Qed.

(** Without a baseline the thresholds are the constants 170 and 160. *)
Lemma thresholds_default :
  thresholds (PostureAnalyzer.__init__ None) = (170, 160).
Proof. reflexivity. Qed.

(** What [analyze] returns when it returns: the angle at the shoulder and
    the tier [classify] gives it under the selected thresholds. *)
Lemma analyze_returns (self : PostureAnalyzer.t) (pl : mp.PoseLandmarks)
    (status : Status) (angle : R) :
  analyze self pl = Return (status, angle) ->
  exists ear shoulder hip,
    nth_error (mp.landmark pl) 17 = Some ear /\
    nth_error (mp.landmark pl) 11 = Some shoulder /\
    nth_error (mp.landmark pl) 23 = Some hip /\
    angle = _calculate_angle ear shoulder hip /\
    status = classify angle (fst (thresholds self))
               (snd (thresholds self)).
Proof.
  unfold analyze, getitem.
  destruct (nth_error (mp.landmark pl) 17) as [ear |]; [| discriminate].
  destruct (nth_error (mp.landmark pl) 11) as [shoulder |]; [| discriminate].
  destruct (nth_error (mp.landmark pl) 23) as [hip |]; [| discriminate].
  simpl. destruct (thresholds self) as [g f]. intros H.
  injection H as Hs Ha. subst. exists ear, shoulder, hip. auto.
Qed.

(** The tier [analyze] returns, read off the thresholds it selected. *)
Lemma analyze_tier (self : PostureAnalyzer.t) (pl : mp.PoseLandmarks)
    (status : Status) (angle : R) :
  analyze self pl = Return (status, angle) ->
  (status = GOOD <-> angle >= fst (thresholds self)) /\
  (status = FAIR
     <-> snd (thresholds self) <= angle < fst (thresholds self)) /\
  (status = BAD <-> angle < snd (thresholds self)).
Proof.
  intros H. apply analyze_returns in H.
  destruct H as (ear & shoulder & hip & _ & _ & _ & _ & Hs).
  pose proof (thresholds_ordered self) as Hgf.
  destruct (thresholds self) as [g f]. cbn [fst snd] in *.
  subst status. unfold classify.
  destruct (Rge_dec angle g) as [Hg | Hg];
    [| destruct (Rge_dec angle f) as [Hf | Hf]];
    (repeat split; try discriminate; try reflexivity; intros; try lra).
Qed.

(** [analyze] returns whenever the three indices are present. *)
Lemma analyze_total (self : PostureAnalyzer.t) (pl : mp.PoseLandmarks) :
  (23 < length (mp.landmark pl))%nat ->
  exists status angle, analyze self pl = Return (status, angle).
Proof.
  intros Hlen. unfold analyze, getitem.
  destruct (nth_error (mp.landmark pl) 17) as [ear |] eqn:E17;
    [| apply nth_error_None in E17; lia].
  destruct (nth_error (mp.landmark pl) 11) as [shoulder |] eqn:E11;
    [| apply nth_error_None in E11; lia].
  destruct (nth_error (mp.landmark pl) 23) as [hip |] eqn:E23;
    [| apply nth_error_None in E23; lia].
  simpl. destruct (thresholds self) as [g f]. eauto.
Qed.



(** The single-file variant compares strictly: an angle equal to the good
    threshold is FAIR there and GOOD in [analyze]. *)
Lemma tier_strict_at_boundary :
  initial_work.tier 170 None = FAIR /\ classify 170 170 160 = GOOD.
Proof.
  unfold initial_work.tier, classify,
    initial_work.Config.GOOD_POSTURE_ANGLE,
    initial_work.Config.FAIR_POSTURE_ANGLE.
  split.
  - destruct (Rgt_dec 170 170); [lra |].
    destruct (Rgt_dec 170 160); [reflexivity | lra].
  - destruct (Rge_dec 170 170); [reflexivity | lra].
Qed.

(** C5.  [analyze] subtracts the constant 10 from [good_angle]: two
    baselines that differ only in [tolerance] classify every pose alike.
    With [good_angle = 175] and [tolerance = 5] the thresholds are 165 and
    155, so the angle 168 is GOOD, while the single-file [check_posture],
    which subtracts the tolerance, makes it FAIR. *)
Theorem analyze_ignores_tolerance :
  (forall g t1 t2 n lo hi pl,
     analyze (PostureAnalyzer.__init__ (Some (Build_Baseline g t1 n lo hi)))
       pl
     = analyze (PostureAnalyzer.__init__ (Some (Build_Baseline g t2 n lo hi)))
         pl) /\
  (let b := Build_Baseline 175 5 50 170 180 in
   thresholds (PostureAnalyzer.__init__ (Some b))
   = (175 - 10, 175 - 20) /\
   classify 168 (175 - 10) (175 - 20) = GOOD /\
   initial_work.tier 168 (Some b) = FAIR).
Proof.
  split; [reflexivity |].
  cbv zeta. split; [reflexivity |]. split.
  - unfold classify. destruct (Rge_dec 168 (175 - 10)); [reflexivity | lra].
  - unfold initial_work.tier; simpl.
    destruct (Rgt_dec 168 (175 - 5)); [lra |].
    destruct (Rgt_dec 168 (175 - 20)); [reflexivity | lra].
Qed.

(** A missing index makes [analyze] raise. *)
Lemma analyze_raises (self : PostureAnalyzer.t) (pl : mp.PoseLandmarks) :
  (length (mp.landmark pl) <= 23)%nat ->
  analyze self pl = Raise IndexError.
Proof.
  intros Hlen. unfold analyze, getitem, bind.
  destruct (nth_error (mp.landmark pl) 17); [| reflexivity].
  destruct (nth_error (mp.landmark pl) 11); [| reflexivity].
  destruct (nth_error (mp.landmark pl) 23) eqn:E23; [| reflexivity].
  assert (nth_error (mp.landmark pl) 23 <> None) as Hsome by congruence.
  apply nth_error_Some in Hsome. lia.
Qed.

(** [analyze] never returns UNKNOWN. *)
Lemma analyze_never_unknown (self : PostureAnalyzer.t) (pl : mp.PoseLandmarks)
    (angle : R) :
  analyze self pl <> Return (UNKNOWN, angle).
Proof.
  intros H. apply analyze_returns in H.
  destruct H as (ear & shoulder & hip & _ & _ & _ & _ & Hs).
  unfold classify in Hs.
  destruct (Rge_dec _ _); [discriminate |].
  destruct (Rge_dec _ _); discriminate.
Qed.

(** The single-file [check_posture] returns (UNKNOWN, 0) when a
    required landmark is missing. *)
Lemma check_posture_missing (landmarks : list mp.Landmark)
    (mp_pose : mp.PoseLandmark) (baseline : option Baseline) :
  nth_error landmarks (mp.LEFT_EAR mp_pose) = None \/
  nth_error landmarks (mp.LEFT_SHOULDER mp_pose) = None \/
  nth_error landmarks (mp.LEFT_HIP mp_pose) = None ->
  initial_work.check_posture landmarks mp_pose baseline = (UNKNOWN, 0).
Proof.
  unfold initial_work.check_posture, getitem.
  intros [H | [H | H]]; rewrite H; simpl;
    repeat (destruct (nth_error _ _); simpl; try reflexivity).
Qed.



End Classifier.

(* ================================================================== *)
(** * Properties of the alert timer *)

Section AlertTimer.
Local Open Scope Q_scope.
Import features features.AlertManager.

(** Comparing an elapsed time does not depend on the origin of time. *)
Lemma Qle_bool_elapsed (c now t d : Q) :
  Qle_bool c ((now + d) - (t + d)) = Qle_bool c (now - t).
Proof.
  assert (E : (now + d) - (t + d) == now - t) by ring.
  now rewrite E.
Qed.

(** [AlertManager.check] commutes with moving the clock. *)
Lemma alert_step_shift (d now : Q) (status : Status) (self : AlertManager.t) :
  alert_step (now + d) status (shift d self)
  = (shift d (fst (alert_step now status self)),
     snd (alert_step now status self)).
Proof.
  unfold alert_step, AlertManager.check, shift.
  destruct self as [[start |] [last |] n], status; simpl;
    rewrite ?Qle_bool_elapsed; try reflexivity;
    destruct (Qle_bool (inject_Z config.BAD_DURATION) _); try reflexivity;
    destruct (Qle_bool (inject_Z config.ALERT_COOLDOWN) _); reflexivity.
Qed.

Lemma run_ticks_delay (d : Q) (ticks : list (Q * Status)) :
  forall self : AlertManager.t,
    run_ticks alert_step (delay d ticks) (shift d self)
    = (shift d (fst (run_ticks alert_step ticks self)),
       snd (run_ticks alert_step ticks self)).
Proof.
  induction ticks as [| [now status] rest IH]; intros self; simpl.
  - reflexivity.
  - rewrite alert_step_shift.
    destruct (alert_step now status self) as [self' sent]. simpl.
    rewrite IH.
    destruct (run_ticks alert_step rest self') as [final flags].
    reflexivity.
Qed.

Lemma shift_init (d : Q) :
  shift d AlertManager.__init__ = AlertManager.__init__.
Proof. reflexivity. Qed.

(** A BAD tick leaves [bad_start] set: to its old value when there is one,
    to the present time otherwise. *)
Lemma check_bad_keeps_start (now : Q) (self : AlertManager.t) :
  bad_start (fst (AlertManager.check now BAD self))
  = Some match bad_start self with
         | Some t => t
         | None => now
         end.
Proof.
  unfold AlertManager.check. simpl.
  destruct (Qle_bool (inject_Z config.BAD_DURATION) _); [| reflexivity].
  destruct (last_alert self) as [t |]; simpl; [| reflexivity].
  destruct (Qle_bool (inject_Z config.ALERT_COOLDOWN) _); reflexivity.
Qed.

(** Any other tick clears [bad_start] and touches nothing else. *)
Lemma check_not_bad_resets (now : Q) (status : Status) (self : AlertManager.t) :
  status <> BAD ->
  AlertManager.check now status self
  = ({| bad_start := None;
        last_alert := last_alert self;
        alert_count := alert_count self |}, []).
Proof.
  intros H. unfold AlertManager.check.
  destruct status; try reflexivity. now elim H.
Qed.

(** The runs of the two claims with the first tick at time 0. *)
Lemma run_181_from_0 :
  run_ticks alert_step (offsets (repeat BAD 181)) AlertManager.__init__
  = ({| bad_start := Some 0; last_alert := Some 180; alert_count := 1 |},
     repeat false 180 ++ [true]).
Proof. vm_compute. reflexivity. Qed.

Lemma run_300_more_from_0 :
  run_ticks alert_step (skipn 181 (offsets (repeat BAD 481)))
    {| bad_start := Some 0; last_alert := Some 180; alert_count := 1 |}
  = ({| bad_start := Some 0; last_alert := Some 480; alert_count := 2 |},
     repeat false 299 ++ [true]).
Proof. vm_compute. reflexivity. Qed.

Lemma run_interrupted_from_0 :
  run_ticks alert_step (offsets interrupted) AlertManager.__init__
  = ({| bad_start := Some 180; last_alert := Some 360; alert_count := 1 |},
     repeat false 360 ++ [true]).
Proof. vm_compute. reflexivity. Qed.

(** C2.  From a fresh [AlertManager], 181 BAD ticks one second apart send
    exactly one alert, at tick 181.  Over the next 300 BAD ticks nothing is
    sent at the first 299, whose time since the last alert is below
    ALERT_COOLDOWN, and one alert is sent at the 300th, where that time is
    300 s.  [bad_start] keeps the time of the first tick throughout: a BAD
    tick never clears it. *)
Theorem alert_181_bad_ticks (t0 : Q) :
  let first := run_ticks alert_step (ticks_1hz t0 (repeat BAD 181))
                 AlertManager.__init__ in
  let more := run_ticks alert_step
                (skipn 181 (ticks_1hz t0 (repeat BAD 481))) (fst first) in
  snd first = repeat false 180 ++ [true] /\
  alert_count (fst first) = 1%Z /\
  last_alert (fst first) = Some (180 + t0) /\
  bad_start (fst first) = Some (0 + t0) /\
  snd more = repeat false 299 ++ [true] /\
  alert_count (fst more) = 2%Z /\
  last_alert (fst more) = Some (480 + t0) /\
  bad_start (fst more) = Some (0 + t0) /\
  (forall now self,
     bad_start (fst (AlertManager.check now BAD self))
     = Some match bad_start self with
            | Some t => t
            | None => now
            end).
Proof.
  cbv zeta. unfold ticks_1hz, delay. rewrite skipn_map.
  fold (delay t0 (offsets (repeat BAD 181))).
  fold (delay t0 (skipn 181 (offsets (repeat BAD 481)))).
  rewrite <- (shift_init t0) at 1 2 3 4 5 6 7 8.
  rewrite run_ticks_delay, run_181_from_0. cbn [fst snd].
  rewrite run_ticks_delay, run_300_more_from_0. cbn [fst snd].
  repeat split; try reflexivity.
  intros now self. apply check_bad_keeps_start.
Qed.

(** C3, as the code behaves.  From a fresh [AlertManager], 179 BAD ticks,
    one GOOD tick and 181 BAD ticks, one second apart: nothing is sent at
    the first 360 ticks, because the GOOD tick clears [bad_start] and the
    accumulation restarts at the next BAD tick; the 181st BAD tick after
    the restart, 180 s later, sends one alert. *)
Theorem alert_after_interruption (t0 : Q) :
  let r := run_ticks alert_step (ticks_1hz t0 interrupted)
             AlertManager.__init__ in
  snd r = repeat false 360 ++ [true] /\
  alert_count (fst r) = 1%Z /\
  bad_start (fst r) = Some (180 + t0) /\
  last_alert (fst r) = Some (360 + t0) /\
  (forall now status self,
     status <> BAD ->
     bad_start (fst (AlertManager.check now status self)) = None).
Proof.
  cbv zeta. unfold ticks_1hz.
  rewrite <- (shift_init t0) at 1 2 3 4.
  rewrite run_ticks_delay, run_interrupted_from_0. cbn [fst snd].
  repeat split; try reflexivity.
  intros now status self H. now rewrite check_not_bad_resets.
Qed.

Lemma alert_after_interruption_witness :
  GOOD <> BAD /\
  bad_start (fst (AlertManager.check 179 GOOD
     {| bad_start := Some 0; last_alert := None; alert_count := 0 |}))
  = None.
Proof.
  assert (H : GOOD <> BAD) by discriminate.
  split; [exact H |].
  exact (proj2 (proj2 (proj2 (proj2 (alert_after_interruption 0))))
           179 GOOD _ H).
Defined.

(** C3, as stated, fails: with the first tick at time 0 the last tick of
    the sequence sends an alert. *)
Lemma alert_after_interruption_fires :
  snd (run_ticks alert_step (ticks_1hz 0 interrupted) AlertManager.__init__)
  <> repeat false 361.
Proof. vm_compute. discriminate. Qed.

(** The single-file variant compares strictly and does not test the
    duration on the tick that starts the timer: its first alert comes at
    tick 182, and the interrupted sequence sends none. *)
Lemma track_bad_posture_runs :
  snd (run_ticks initial_work.track_bad_posture
         (ticks_1hz 0 (repeat BAD 182)) (None, None))
  = repeat false 181 ++ [true] /\
  snd (run_ticks initial_work.track_bad_posture
         (ticks_1hz 0 interrupted) (None, None))
  = repeat false 361.
Proof. split; vm_compute; reflexivity. Qed.
End AlertTimer.

(* ================================================================== *)
(** * Properties of rounding and of the session score *)

Section Rounding.
Local Open Scope Q_scope.

Lemma round_half_even_Q_near (q : Q) :
  q - (1 # 2) <= inject_Z (round_half_even_Q q) <= q + (1 # 2).
Proof.
  pose proof (Qfloor_le q) as Hlo. pose proof (Qlt_floor q) as Hhi.
  rewrite inject_Z_plus in Hhi. change (inject_Z 1) with 1 in Hhi.
  unfold round_half_even_Q.
  destruct (Qcompare (q - inject_Z (Qfloor q)) (1 # 2)) eqn:E.
  - apply Qeq_alt in E.
    destruct (Z.even (Qfloor q)); rewrite ?inject_Z_plus;
      change (inject_Z 1) with 1; lra.
  - apply Qlt_alt in E. lra.
  - apply Qgt_alt in E. rewrite inject_Z_plus.
    change (inject_Z 1) with 1. lra.
Qed.

Lemma round_half_even_Q_bounds (q : Q) (a b : Z) :
  inject_Z a <= q <= inject_Z b ->
  (a <= round_half_even_Q q <= b)%Z.
Proof.
  intros [Ha Hb].
  assert (Hfa : (a <= Qfloor q)%Z).
  { rewrite <- (Qfloor_Z a). now apply Qfloor_resp_le. }
  assert (Hfb : (Qfloor q <= b)%Z).
  { rewrite <- (Qfloor_Z b). now apply Qfloor_resp_le. }
  unfold round_half_even_Q.
  destruct (Qcompare (q - inject_Z (Qfloor q)) (1 # 2)) eqn:E.
  - destruct (Z.even (Qfloor q)); [lia |].
    apply Qeq_alt in E.
    destruct (Z.eq_dec (Qfloor q) b) as [Eb | Nb]; [| lia].
    rewrite Eb in E. lra.
  - lia.
  - apply Qgt_alt in E.
    destruct (Z.eq_dec (Qfloor q) b) as [Eb | Nb]; [| lia].
    rewrite Eb in E. lra.
Qed.

Lemma round_half_even_Q_comp (p q : Q) :
  p == q -> round_half_even_Q p = round_half_even_Q q.
Proof.
  intros E. unfold round_half_even_Q.
  assert (Ef : Qfloor p = Qfloor q) by now apply Qfloor_comp.
  assert (Ec : Qcompare (p - inject_Z (Qfloor p)) (1 # 2)
               = Qcompare (q - inject_Z (Qfloor q)) (1 # 2)).
  { apply Qcompare_comp; [| reflexivity]. now rewrite Ef, E. }
  cbv zeta. now rewrite Ec, Ef.
Qed.

Lemma round_Q_1_eq (q : Q) :
  round_Q q 1 == inject_Z (round_half_even_Q (q * 10)) / 10.
Proof.
  unfold round_Q. rewrite Qred_correct. reflexivity.
Qed.

Lemma round_Q_comp (p q : Q) (ndigits : nat) :
  p == q -> round_Q p ndigits = round_Q q ndigits.
Proof.
  intros E. unfold round_Q. cbv zeta.
  set (scale := inject_Z (10 ^ Z.of_nat ndigits)).
  assert (H : round_half_even_Q (p * scale) = round_half_even_Q (q * scale)).
  { apply round_half_even_Q_comp. now rewrite E. }
  now rewrite H.
Qed.

(** Rounding to one decimal moves a value by at most a twentieth. *)
Lemma round_Q_1_near (q : Q) :
  q - (1 # 20) <= round_Q q 1 <= q + (1 # 20).
Proof.
  rewrite round_Q_1_eq.
  pose proof (round_half_even_Q_near (q * 10)) as H.
  set (k := inject_Z (round_half_even_Q (q * 10))) in *.
  unfold Qdiv. change (/ 10) with (1 # 10). lra.
Qed.

Lemma round_Q_1_bounds (q : Q) (a b : Z) :
  inject_Z a <= q <= inject_Z b ->
  inject_Z a <= round_Q q 1 <= inject_Z b.
Proof.
  intros [Ha Hb]. rewrite round_Q_1_eq.
  assert (H : (a * 10 <= round_half_even_Q (q * 10) <= b * 10)%Z).
  { apply round_half_even_Q_bounds. rewrite !inject_Z_mult.
    change (inject_Z 10) with 10. lra. }
  destruct H as [H1 H2].
  rewrite Zle_Qle in H1, H2. rewrite !inject_Z_mult in H1, H2.
  change (inject_Z 10) with 10 in *.
  set (k := inject_Z (round_half_even_Q (q * 10))) in *.
  unfold Qdiv. change (/ 10) with (1 # 10). lra.
Qed.
End Rounding.

Section SessionScore.
Local Open Scope Q_scope.
Import features features.SessionLogger.

Lemma count_status_nonneg (s : Status) (l : list LogEntry) :
  (0 <= count_status s l)%Z.
Proof. unfold count_status. lia. Qed.

(** Every entry is counted under exactly one status. *)
Lemma count_status_total (l : list LogEntry) :
  (count_status GOOD l + count_status FAIR l + count_status BAD l
   + count_status UNKNOWN l = Z.of_nat (length l))%Z.
Proof.
  unfold count_status.
  induction l as [| e rest IH]; [reflexivity |].
  cbn [filter length]. destruct (status e); cbn [Status_eqb length]; lia.
Qed.

(** The single-file [calculate_session_score] computes the same score
    from the statuses of the log. *)
Lemma calculate_session_score_same (self : SessionLogger.t) :
  initial_work.calculate_session_score (map status (log self))
  = get_score self.
Proof.
  assert (Hc : forall s l,
             Z.of_nat (length (filter (fun x => Status_eqb x s)
                                 (map status l)))
             = count_status s l).
  { intros s l. unfold count_status. f_equal.
    induction l as [| e rest IH]; [reflexivity |].
    cbn [map filter]. destruct (Status_eqb (status e) s); cbn [length];
      now rewrite IH. }
  unfold initial_work.calculate_session_score, get_score.
  destruct (log self) as [| e rest]; [reflexivity |].
  rewrite !Hc, length_map. reflexivity.
Qed.

Lemma get_score_nonempty (self : SessionLogger.t) :
  log self <> [] ->
  get_score self = round_Q (weighted_mean (log self)) 1.
Proof.
  unfold get_score. destruct (log self); [congruence | reflexivity].
Qed.

Lemma weighted_mean_bounds (l : list LogEntry) :
  l <> [] -> 0 <= weighted_mean l <= 100.
Proof.
  intros Hne. unfold weighted_mean.
  pose proof (count_status_total l) as Ht.
  pose proof (count_status_nonneg GOOD l).
  pose proof (count_status_nonneg FAIR l).
  pose proof (count_status_nonneg BAD l).
  pose proof (count_status_nonneg UNKNOWN l).
  assert (Hpos : (0 < Z.of_nat (length l))%Z).
  { destruct l; [congruence | cbn [length]; lia]. }
  set (total := Z.of_nat (length l)) in *.
  assert (Hq : 0 < inject_Z total).
  { change 0 with (inject_Z 0). now rewrite <- Zlt_Qlt. }
  split.
  - apply Qle_shift_div_l; [exact Hq |].
    rewrite Qmult_0_l. change 0 with (inject_Z 0).
    rewrite <- Zle_Qle. lia.
  - apply Qle_shift_div_r; [exact Hq |].
    change 100 with (inject_Z 100). rewrite <- inject_Z_mult, <- Zle_Qle.
    lia.
Qed.

(** C7.  [get_score] is 0 on an empty log.  On a non-empty log it is the
    weighted mean (good*100 + fair*60 + bad*20) / total rounded to one
    decimal: a whole number of tenths within a twentieth of the mean.  It
    always lies in [0, 100]; a log of one GOOD entry scores 100, and a log
    of GOOD, FAIR and BAD entries in equal nonzero numbers scores 60. *)
Theorem get_score_spec (self : SessionLogger.t) :
  (log self = [] -> get_score self = 0) /\
  (log self <> [] ->
   get_score self = round_Q (weighted_mean (log self)) 1 /\
   (exists k : Z, get_score self == inject_Z k / 10) /\
   weighted_mean (log self) - (1 # 20) <= get_score self
     <= weighted_mean (log self) + (1 # 20)) /\
  0 <= get_score self <= 100 /\
  (forall e,
     log self = [e] -> status e = GOOD -> get_score self = 100) /\
  (forall n : Z,
     (0 < n)%Z ->
     count_status GOOD (log self) = n ->
     count_status FAIR (log self) = n ->
     count_status BAD (log self) = n ->
     count_status UNKNOWN (log self) = 0%Z ->
     get_score self = 60).
Proof.
  split; [| split; [| split; [| split]]].
  - intros E. unfold get_score. now rewrite E.
  - intros Hne. rewrite (get_score_nonempty self Hne).
    split; [reflexivity |]. split.
    + eexists. apply round_Q_1_eq.
    + apply round_Q_1_near.
  - destruct (log self) as [| e rest] eqn:E.
    + unfold get_score. rewrite E. split; discriminate.
    + assert (Hne : log self <> []) by congruence.
      rewrite (get_score_nonempty self Hne).
      apply (round_Q_1_bounds _ 0 100).
      now apply weighted_mean_bounds.
  - intros e E Hs. unfold get_score, count_status. rewrite E.
    cbn [filter length]. rewrite Hs. reflexivity.
  - intros n Hn Hg Hf Hb Hu.
    pose proof (count_status_total (log self)) as Ht.
    assert (Hne : log self <> []).
    { intros E. rewrite E in Hg. cbn in Hg. lia. }
    rewrite (get_score_nonempty self Hne).
    rewrite (round_Q_comp _ 60 1); [reflexivity |].
    unfold weighted_mean. rewrite <- Ht, Hg, Hf, Hb, Hu.
    assert (Hnz : ~ inject_Z (n + n + n + 0) == 0).
    { change 0 with (inject_Z 0). rewrite inject_Z_injective. lia. }
    assert (E : inject_Z (n * 100 + n * 60 + n * 20)
                == 60 * inject_Z (n + n + n + 0)).
    { change 60 with (inject_Z 60).
      rewrite <- inject_Z_mult, inject_Z_injective. lia. }
    rewrite E. now apply Qdiv_mult_l.
Qed.

Lemma get_score_spec_witness :
  let self :=
    {| log := [ {| timestamp := 5; status := GOOD; angle := 175%R |};
                {| timestamp := 10; status := FAIR; angle := 165%R |};
                {| timestamp := 15; status := BAD; angle := 150%R |} ];
       session_start := 0;
       last_record := 15 |} in
  log self <> [] /\ (0 < 1)%Z /\ get_score self = 60.
Proof.
  cbv zeta. split; [discriminate |]. split; [reflexivity |].
  refine (proj2 (proj2 (proj2 (proj2 (get_score_spec _)))) 1%Z _ _ _ _ _);
    reflexivity.
Defined.
End SessionScore.

(* ================================================================== *)
(** * Properties of the session log *)

Section SessionRecorder.
Local Open Scope Q_scope.
Import features features.SessionLogger.

Lemma record_appends (now : Q) (s : Status) (a : R) (self : SessionLogger.t) :
  inject_Z config.RECORD_EVERY <= now - last_record self ->
  record now s a self
  = {| log := log self ++ [ {| timestamp := now; status := s;
                               angle := round a 2 |} ];
       session_start := session_start self;
       last_record := now |}.
Proof.
  intros H. unfold record. apply Qle_bool_iff in H. now rewrite H.
Qed.

Lemma record_skips (now : Q) (s : Status) (a : R) (self : SessionLogger.t) :
  now - last_record self < inject_Z config.RECORD_EVERY ->
  record now s a self = self.
Proof.
  intros H. unfold record.
  destruct (Qle_bool _ _) eqn:E; [| reflexivity].
  apply Qle_bool_iff in E. lra.
Qed.

(** C8, as the code behaves.  Two calls to [record] made less than
    RECORD_EVERY seconds apart append at most one entry in total, and when
    the first call appends, the second changes nothing.  A call appends one
    entry, and moves [last_record] to the present, exactly when at least
    RECORD_EVERY seconds have passed since [last_record]; otherwise it
    changes nothing. *)
Theorem record_twice_within_window (self : SessionLogger.t) (t1 t2 : Q)
    (s1 s2 : Status) (a1 a2 : R) :
  t2 - t1 < inject_Z config.RECORD_EVERY ->
  let once := record t1 s1 a1 self in
  let twice := record t2 s2 a2 once in
  (length (log twice) <= S (length (log self)))%nat /\
  (inject_Z config.RECORD_EVERY <= t1 - last_record self ->
   twice = once /\ length (log twice) = S (length (log self))) /\
  (forall now s a,
     (inject_Z config.RECORD_EVERY <= now - last_record self ->
      log (record now s a self)
      = log self ++ [ {| timestamp := now; status := s;
                         angle := round a 2 |} ] /\
      last_record (record now s a self) = now) /\
     (now - last_record self < inject_Z config.RECORD_EVERY ->
      record now s a self = self)).
Proof.
  intros Hclose. cbv zeta.
  assert (Hfirst : inject_Z config.RECORD_EVERY <= t1 - last_record self ->
                   record t2 s2 a2 (record t1 s1 a1 self)
                   = record t1 s1 a1 self
                   /\ length (log (record t1 s1 a1 self))
                      = S (length (log self))).
  { intros H1. rewrite (record_appends t1 s1 a1 self H1).
    split.
    - apply record_skips. cbn [last_record]. exact Hclose.
    - cbn [log]. rewrite length_app. cbn [length]. lia. }
  split; [| split].
  - destruct (Qlt_le_dec (t1 - last_record self)
                (inject_Z config.RECORD_EVERY)) as [H1 | H1].
    + rewrite (record_skips t1 s1 a1 self H1).
      destruct (Qlt_le_dec (t2 - last_record self)
                  (inject_Z config.RECORD_EVERY)) as [H2 | H2].
      * rewrite (record_skips t2 s2 a2 self H2). lia.
      * rewrite (record_appends t2 s2 a2 self H2). cbn [log].
        rewrite length_app. cbn [length]. lia.
    + destruct (Hfirst H1) as [E L]. rewrite E, L. lia.
  - intros H1. destruct (Hfirst H1) as [E L]. rewrite E. now split.
  - intros now s a. split.
    + intros H. rewrite (record_appends now s a self H). split; reflexivity.
    + apply record_skips.
Qed.

Lemma record_twice_within_window_witness :
  let self := SessionLogger.__init__ 0 in
  6 - 5 < inject_Z config.RECORD_EVERY /\
  inject_Z config.RECORD_EVERY <= 5 - last_record self /\
  record 6 BAD 150 (record 5 GOOD 175 self) = record 5 GOOD 175 self.
Proof.
  cbv zeta.
  assert (H : 6 - 5 < inject_Z config.RECORD_EVERY) by reflexivity.
  assert (H1 : inject_Z config.RECORD_EVERY
               <= 5 - last_record (SessionLogger.__init__ 0)) by discriminate.
  split; [exact H |]. split; [exact H1 |].
  exact (proj1 (proj1 (proj2 (record_twice_within_window
                                (SessionLogger.__init__ 0) 5 6 GOOD BAD
                                175%R 150%R H)) H1)).
Defined.

(** C8, as stated, fails.  Two calls one second apart, both within 5 s of
    [last_record], append nothing; and after a first call 4 s after
    [last_record] that appends nothing, a second call 2 s later appends. *)
Lemma record_twice_not_exactly_one :
  (2 - 1 < inject_Z config.RECORD_EVERY /\
   length (log (record 2 GOOD 175
                  (record 1 GOOD 175 (SessionLogger.__init__ 0))))
   <> S (length (log (SessionLogger.__init__ 0)))) /\
  (6 - 4 < inject_Z config.RECORD_EVERY /\
   record 6 GOOD 175 (record 4 GOOD 175 (SessionLogger.__init__ 0))
   <> record 4 GOOD 175 (SessionLogger.__init__ 0)).
Proof.
  split; (split; [reflexivity |]).
  - rewrite (record_skips 1), (record_skips 2); try reflexivity.
    discriminate.
  - rewrite (record_skips 4) by reflexivity.
    rewrite (record_appends 6) by discriminate.
    discriminate.
Qed.
End SessionRecorder.

(* ================================================================== *)
(** * Properties of the calibration *)

Section Calibration.
Import posture_core posture_core.PostureAnalyzer.

(** The baseline file changes only when a baseline is returned. *)
Lemma calibrate_user_file (captures : list Capture) (file : BaselineFile) :
  snd (calibrate_user captures file) = file \/
  exists b, calibrate_user captures file = (Return (Some b), Json b) /\
            (50 <= samples b)%nat.
Proof.
  unfold calibrate_user.
  destruct (calibrate_collect _ captures []) as [angles | e]; [| now left].
  destruct (length angles <? 50)%nat eqn:E; [now left |].
  apply Nat.ltb_ge in E.
  destruct angles as [| x rest]; [cbn in E; lia |].
  right. eexists. split; [reflexivity | exact E].
Qed.

(** C9.  When the observation loop of [calibrate_user] ends with fewer
    than 50 collected angles, the function returns None and the baseline
    file is what it was, so a baseline saved earlier still loads. *)
Theorem calibrate_user_insufficient (captures : list Capture)
    (file : BaselineFile) (angles : list R) :
  calibrate_collect (PostureAnalyzer.__init__ None) captures []
  = Return angles ->
  (length angles < 50)%nat ->
  calibrate_user captures file = (Return None, file) /\
  load_baseline (snd (calibrate_user captures file)) = load_baseline file.
Proof.
  intros Hc Hlen. unfold calibrate_user. rewrite Hc.
  apply Nat.ltb_lt in Hlen. rewrite Hlen. split; reflexivity.
Qed.

Lemma calibrate_user_insufficient_witness :
  let captures := [ReadFailed; Frame None false; Frame None true] in
  let file := Json (Build_Baseline 175 10 60 170 180) in
  calibrate_collect (PostureAnalyzer.__init__ None) captures [] = Return [] /\
  (length (@nil R) < 50)%nat /\
  calibrate_user captures file = (Return None, file).
Proof.
  cbv zeta.
  assert (Hc : calibrate_collect (PostureAnalyzer.__init__ None)
                 [ReadFailed; Frame None false; Frame None true] []
               = Return []) by reflexivity.
  assert (Hl : (length (@nil R) < 50)%nat) by (cbn; lia).
  split; [exact Hc |]. split; [exact Hl |].
  exact (proj1 (calibrate_user_insufficient _ _ _ Hc Hl)).
Defined.
End Calibration.

(* ================================================================== *)
(** * Properties of the monitoring loop *)

Section MonitoringLoop.
Local Open Scope Q_scope.
Import features features.BreakReminder features.SessionLogger main.

(** With a person in the frame the three components are each called once,
    with the status and angle of [analyze]. *)
Lemma main_loop_body_detected (analyzer : posture_core.PostureAnalyzer.t)
    (now : Q) (pl : mp.PoseLandmarks) (m : Monitors)
    (status : Status) (angle : R) :
  posture_core.PostureAnalyzer.analyze analyzer pl = Return (status, angle) ->
  exists sent d,
    main_loop_body analyzer now (Some pl) m
    = Return ({| alerts := fst (AlertManager.check now status (alerts m));
                 breaks := fst (BreakReminder.check now (breaks m));
                 logger := record now status angle (logger m) |}, sent, d).
Proof.
  intros H. unfold main_loop_body. rewrite H. cbn [bind].
  destruct (AlertManager.check now status (alerts m)) as [a1 s1].
  destruct (BreakReminder.check now (breaks m)) as [b1 s2].
  eexists. eexists. reflexivity.
Qed.

(** C10.  An iteration of [main_loop] in which no person is detected
    leaves the alert manager, the break reminder and the logger as they
    were and requests no notification; in particular [break_count] keeps
    its value, also when BREAK_INTERVAL seconds or more have passed since
    [last_break], a moment at which [BreakReminder.check] itself would send
    a reminder and count it. *)
Theorem no_person_no_break (analyzer : posture_core.PostureAnalyzer.t)
    (now : Q) (m : Monitors) :
  main_loop_body analyzer now None m
  = Return (m, [], {| shown_status := UNKNOWN; shown_angle := 0%R;
                      shown_score := get_score (logger m) |}) /\
  (inject_Z config.BREAK_INTERVAL <= now - last_break (breaks m) ->
   BreakReminder.check now (breaks m)
   = ({| last_break := now; break_count := break_count (breaks m) + 1 |},
      [BreakTime])).
Proof.
  split; [reflexivity |].
  intros H. unfold BreakReminder.check.
  apply Qle_bool_iff in H. now rewrite H.
Qed.

Lemma no_person_no_break_witness :
  let m := {| alerts := AlertManager.__init__;
              breaks := BreakReminder.__init__ 0;
              logger := SessionLogger.__init__ 0 |} in
  inject_Z config.BREAK_INTERVAL <= 2000 - last_break (breaks m) /\
  main_loop_body (posture_core.PostureAnalyzer.__init__ None) 2000 None m
  = Return (m, [], {| shown_status := UNKNOWN; shown_angle := 0%R;
                      shown_score := 0 |}) /\
  break_count (fst (BreakReminder.check 2000 (breaks m))) = 1%Z.
Proof.
  cbv zeta.
  set (m := {| alerts := AlertManager.__init__;
               breaks := BreakReminder.__init__ 0;
               logger := SessionLogger.__init__ 0 |}).
  set (analyzer := posture_core.PostureAnalyzer.__init__ None).
  assert (H : inject_Z config.BREAK_INTERVAL
              <= 2000 - last_break (breaks m)) by discriminate.
  split; [exact H |]. split.
  - exact (proj1 (no_person_no_break analyzer 2000 m)).
  - rewrite (proj2 (no_person_no_break analyzer 2000 m) H).
    reflexivity.
Defined.
End MonitoringLoop.

(* ================================================================== *)
(** * Further properties of the angle computation *)

Section AngleGeometryMore.
Local Open Scope R_scope.
Import posture_core posture_core.PostureAnalyzer.

(** The range of [_calculate_angle], for use below. *)
Lemma angle_range (a b c : mp.Landmark) :
  0 <= _calculate_angle a b c <= 180.
Proof.
  unfold _calculate_angle.
  set (y1 := mp.y c - mp.y b). set (x1 := mp.x c - mp.x b).
  set (y2 := mp.y a - mp.y b). set (x2 := mp.x a - mp.x b).
  pose proof (degrees_of_difference y1 x1 y2 x2) as Hlt.
  pose proof (Rabs_pos ((atan2 y1 x1 - atan2 y2 x2) * 180 / PI)) as Hge.
  destruct (Rlt_dec 180 _); lra.
Qed.

(** Exchanging the two outer landmarks does not change the angle. *)
Theorem calculate_angle_sym (a b c : mp.Landmark) :
  _calculate_angle a b c = _calculate_angle c b a.
Proof.
  unfold _calculate_angle.
  set (ta := atan2 (mp.y a - mp.y b) (mp.x a - mp.x b)).
  set (tc := atan2 (mp.y c - mp.y b) (mp.x c - mp.x b)).
  assert (E : Rabs ((ta - tc) * 180 / PI) = Rabs ((tc - ta) * 180 / PI)).
  { rewrite <- (Rabs_Ropp ((tc - ta) * 180 / PI)). f_equal.
    unfold Rdiv. ring. }
  rewrite E. reflexivity.
Qed.

(** The angle depends only on the positions relative to the vertex, in the
    image plane: moving the three landmarks together, and changing their
    depth and visibility, leaves it unchanged. *)
Theorem calculate_angle_moved (dx dy : R) (za zb zc va vb vc : R)
    (a b c : mp.Landmark) :
  _calculate_angle (move dx dy za va a) (move dx dy zb vb b)
    (move dx dy zc vc c)
  = _calculate_angle a b c.
Proof.
  unfold _calculate_angle, move. cbn [mp.x mp.y].
  replace (mp.y c + dy - (mp.y b + dy)) with (mp.y c - mp.y b) by ring.
  replace (mp.x c + dx - (mp.x b + dx)) with (mp.x c - mp.x b) by ring.
  replace (mp.y a + dy - (mp.y b + dy)) with (mp.y a - mp.y b) by ring.
  replace (mp.x a + dx - (mp.x b + dx)) with (mp.x a - mp.x b) by ring.
  reflexivity.
Qed.

(** [atan2] of a vector stretched by a positive factor. *)
Lemma atan2_scale (k y x : R) : 0 < k -> atan2 (k * y) (k * x) = atan2 y x.
Proof.
  intros Hk. unfold atan2.
  destruct (Rlt_dec 0 x) as [Hx | Hx].
  - destruct (Rlt_dec 0 (k * x)) as [_ | H]; [| exfalso; nra].
    f_equal. field. lra.
  - destruct (Rlt_dec 0 (k * x)) as [H | _]; [exfalso; nra |].
    destruct (Rlt_dec x 0) as [Hx' | Hx'].
    + destruct (Rlt_dec (k * x) 0) as [_ | H]; [| exfalso; nra].
      assert (E : k * y / (k * x) = y / x) by (field; lra).
      rewrite E.
      destruct (Rle_dec 0 y), (Rle_dec 0 (k * y));
        try reflexivity; exfalso; nra.
    + destruct (Rlt_dec (k * x) 0) as [H | _]; [exfalso; nra |].
      destruct (Rlt_dec 0 y), (Rlt_dec 0 (k * y));
        try reflexivity; try (exfalso; nra).
      destruct (Rlt_dec y 0), (Rlt_dec (k * y) 0);
        try reflexivity; exfalso; nra.
Qed.

(** When the two outer landmarks lie in the same direction from the
    vertex, the angle is 0. *)
Theorem calculate_angle_same_ray (k : R) (a b : mp.Landmark) :
  k < 0 ->
  _calculate_angle a b (beyond k a b) = 0.
Proof.
  intros Hk. unfold _calculate_angle, beyond. cbn [mp.x mp.y].
  set (vx := mp.x a - mp.x b). set (vy := mp.y a - mp.y b).
  replace (mp.y b + k * (mp.y b - mp.y a) - mp.y b) with (- k * vy)
    by (unfold vy; ring).
  replace (mp.x b + k * (mp.x b - mp.x a) - mp.x b) with (- k * vx)
    by (unfold vx; ring).
  rewrite (atan2_scale (- k) vy vx) by lra.
  replace ((atan2 vy vx - atan2 vy vx) * 180 / PI) with 0
    by (unfold Rdiv; ring).
  rewrite Rabs_R0. destruct (Rlt_dec 180 0); [lra | reflexivity].
Qed.

Lemma calculate_angle_same_ray_witness :
  - 1 < 0 /\
  _calculate_angle
    {| mp.x := 1 / 2; mp.y := 1 / 5; mp.z := 0; mp.visibility := 1 |}
    {| mp.x := 1 / 2; mp.y := 1 / 2; mp.z := 0; mp.visibility := 1 |}
    (beyond (- 1)
       {| mp.x := 1 / 2; mp.y := 1 / 5; mp.z := 0; mp.visibility := 1 |}
       {| mp.x := 1 / 2; mp.y := 1 / 2; mp.z := 0; mp.visibility := 1 |})
  = 0.
Proof.
  assert (Hk : - 1 < 0) by lra.
  split; [exact Hk |].
  exact (calculate_angle_same_ray (- 1) _ _ Hk).
Defined.
End AngleGeometryMore.

(* ================================================================== *)
(** * Further properties of the two classifiers *)

Section ClassifierMore.
Local Open Scope R_scope.
Import posture_core posture_core.PostureAnalyzer.

(** A result of [analyze] has its angle in [0, 180] and a tier other than
    UNKNOWN. *)
Lemma analyze_in_range (self : PostureAnalyzer.t) (pl : mp.PoseLandmarks)
    (status : Status) (angle : R) :
  analyze self pl = Return (status, angle) ->
  0 <= angle <= 180 /\ Status_eqb status UNKNOWN = false.
Proof.
  intros H.
  pose proof (analyze_returns self pl status angle H)
    as (ear & shoulder & hip & _ & _ & _ & Ha & Hs).
  split.
  - rewrite Ha. apply angle_range.
  - rewrite Hs. unfold classify.
    destruct (Rge_dec _ _); [reflexivity |].
    destruct (Rge_dec _ _); reflexivity.
Qed.

(** [analyze] returns exactly when the landmark list has at least 24
    entries; the angle it returns lies in [0, 180] and the tier is never
    UNKNOWN.  On a shorter list it raises IndexError. *)
Theorem analyze_result (self : PostureAnalyzer.t) (pl : mp.PoseLandmarks) :
  ((23 < length (mp.landmark pl))%nat /\
   exists status angle,
     analyze self pl = Return (status, angle) /\
     0 <= angle <= 180 /\
     Status_eqb status UNKNOWN = false) \/
  ((length (mp.landmark pl) <= 23)%nat /\
   analyze self pl = Raise IndexError).
Proof.
  destruct (Nat.lt_ge_cases 23 (length (mp.landmark pl))) as [Hlen | Hlen].
  - left. split; [exact Hlen |].
    destruct (analyze_total self pl Hlen) as (status & angle & H).
    exists status, angle. split; [exact H |].
    now apply (analyze_in_range self pl).
  - right. split; [exact Hlen |]. now apply analyze_raises.
Qed.

(** The tier of the single-file [check_posture] is never UNKNOWN. *)
Lemma tier_known (angle : R) (baseline : option Baseline) :
  Status_eqb (initial_work.tier angle baseline) UNKNOWN = false.
Proof.
  unfold initial_work.tier. destruct baseline as [b |];
    (destruct (Rgt_dec _ _); [reflexivity |]);
    (destruct (Rgt_dec _ _); reflexivity).
Qed.

(** The single-file [check_posture] never raises.  When the three
    landmarks are present it returns their angle, in [0, 180], with a tier
    other than UNKNOWN; it returns (UNKNOWN, 0) exactly when one of the
    three is missing. *)
Theorem check_posture_result (landmarks : list mp.Landmark)
    (mp_pose : mp.PoseLandmark) (baseline : option Baseline) :
  (exists ear shoulder hip,
     nth_error landmarks (mp.LEFT_EAR mp_pose) = Some ear /\
     nth_error landmarks (mp.LEFT_SHOULDER mp_pose) = Some shoulder /\
     nth_error landmarks (mp.LEFT_HIP mp_pose) = Some hip /\
     let angle := initial_work.calculate_angle ear shoulder hip in
     initial_work.check_posture landmarks mp_pose baseline
     = (initial_work.tier angle baseline, angle) /\
     0 <= angle <= 180 /\
     Status_eqb (initial_work.tier angle baseline) UNKNOWN = false) \/
  ((nth_error landmarks (mp.LEFT_EAR mp_pose) = None \/
    nth_error landmarks (mp.LEFT_SHOULDER mp_pose) = None \/
    nth_error landmarks (mp.LEFT_HIP mp_pose) = None) /\
   initial_work.check_posture landmarks mp_pose baseline = (UNKNOWN, 0)).
Proof.
  destruct (nth_error landmarks (mp.LEFT_EAR mp_pose)) as [ear |] eqn:E1;
    [| right; split; [now left | apply check_posture_missing; now left]].
  destruct (nth_error landmarks (mp.LEFT_SHOULDER mp_pose))
    as [shoulder |] eqn:E2;
    [| right; split;
       [right; now left | apply check_posture_missing; right; now left]].
  destruct (nth_error landmarks (mp.LEFT_HIP mp_pose)) as [hip |] eqn:E3;
    [| right; split;
       [right; now right | apply check_posture_missing; right; now right]].
  left. exists ear, shoulder, hip. repeat split; try reflexivity.
  - unfold initial_work.check_posture, getitem. now rewrite E1, E2, E3.
  - apply (angle_range ear shoulder hip).
  - apply (angle_range ear shoulder hip).
  - apply tier_known.
Qed.

(** The tiers of the single-file [check_posture] with a baseline whose
    tolerance is below 20: GOOD strictly above [good_angle - tolerance],
    BAD up to and including [good_angle - 20], FAIR in between. *)
Theorem tier_partition (angle : R) (b : Baseline) :
  tolerance b < 20 ->
  (initial_work.tier angle (Some b) = GOOD
     <-> angle > good_angle b - tolerance b) /\
  (initial_work.tier angle (Some b) = FAIR
     <-> good_angle b - 20 < angle <= good_angle b - tolerance b) /\
  (initial_work.tier angle (Some b) = BAD
     <-> angle <= good_angle b - 20).
Proof.
  intros Htol. unfold initial_work.tier.
  destruct (Rgt_dec angle (good_angle b - tolerance b)) as [Hg | Hg];
    [| destruct (Rgt_dec angle (good_angle b - 20)) as [Hf | Hf]];
    (repeat split; try discriminate; try reflexivity; intros; try lra).
Qed.

Lemma tier_partition_witness :
  let b := Build_Baseline 175 10 60 170 180 in
  tolerance b < 20 /\ initial_work.tier 150 (Some b) = BAD.
Proof.
  cbv zeta.
  assert (H : tolerance (Build_Baseline 175 10 60 170 180) < 20)
    by (cbn; lra).
  split; [exact H |].
  apply (proj2 (proj2 (tier_partition 150 _ H))). cbn. lra.
Defined.

(** With a baseline whose tolerance is 20 or more the FAIR band of the
    single-file [check_posture] is empty: every angle is GOOD or BAD. *)
Theorem tier_wide_tolerance (angle : R) (b : Baseline) :
  20 <= tolerance b ->
  (initial_work.tier angle (Some b) = GOOD
     <-> angle > good_angle b - tolerance b) /\
  (initial_work.tier angle (Some b) = BAD
     <-> angle <= good_angle b - tolerance b).
Proof.
  intros Htol. unfold initial_work.tier.
  destruct (Rgt_dec angle (good_angle b - tolerance b)) as [Hg | Hg];
    [| destruct (Rgt_dec angle (good_angle b - 20)) as [Hf | Hf]];
    (repeat split; try discriminate; try reflexivity; intros; try lra).
Qed.

Lemma tier_wide_tolerance_witness :
  let b := Build_Baseline 175 25 60 170 180 in
  20 <= tolerance b /\ initial_work.tier 152 (Some b) = GOOD.
Proof.
  cbv zeta.
  assert (H : 20 <= tolerance (Build_Baseline 175 25 60 170 180))
    by (cbn; lra).
  split; [exact H |].
  apply (proj1 (tier_wide_tolerance 152 _ H)). cbn. lra.
Defined.

(** Reading the same three indices, [analyze] and the single-file
    [check_posture] return the same pair whenever the baseline is absent
    or has tolerance 10 and the angle is not exactly on a threshold. *)
Theorem analyze_check_posture_agree (self : PostureAnalyzer.t)
    (pl : mp.PoseLandmarks) (status : Status) (angle : R) :
  analyze self pl = Return (status, angle) ->
  match baseline self with
  | Some b => tolerance b = 10
  | None => True
  end ->
  angle <> fst (thresholds self) ->
  angle <> snd (thresholds self) ->
  initial_work.check_posture (mp.landmark pl)
    {| mp.LEFT_EAR := 17; mp.LEFT_SHOULDER := 11; mp.LEFT_HIP := 23 |}
    (baseline self)
  = (status, angle).
Proof.
  intros H Htol Hg Hf.
  apply analyze_returns in H.
  destruct H as (ear & shoulder & hip & E1 & E2 & E3 & Ha & Hs).
  unfold initial_work.check_posture, getitem. cbn [mp.LEFT_EAR
    mp.LEFT_SHOULDER mp.LEFT_HIP]. rewrite E1, E2, E3. cbn [bind].
  change (initial_work.calculate_angle ear shoulder hip)
    with (_calculate_angle ear shoulder hip).
  rewrite <- Ha. f_equal. rewrite Hs.
  unfold thresholds in *. unfold initial_work.tier, classify.
  destruct (baseline self) as [b |]; cbn [fst snd] in *.
  - rewrite Htol.
    destruct (Rge_dec angle (good_angle b - 10)),
             (Rgt_dec angle (good_angle b - 10)); try lra;
      try reflexivity.
    destruct (Rge_dec angle (good_angle b - 20)),
             (Rgt_dec angle (good_angle b - 20)); try lra; reflexivity.
  - unfold initial_work.Config.GOOD_POSTURE_ANGLE,
      initial_work.Config.FAIR_POSTURE_ANGLE, config.GOOD_ANGLE,
      config.FAIR_ANGLE in *.
    destruct (Rge_dec angle 170), (Rgt_dec angle 170); try lra;
      try reflexivity.
    destruct (Rge_dec angle 160), (Rgt_dec angle 160); try lra; reflexivity.
Qed.
Lemma analyze_check_posture_agree_witness :
  let p := {| mp.x := 1 / 2; mp.y := 1 / 2; mp.z := 0;
              mp.visibility := 1 |} in
  let pl := {| mp.landmark := repeat p 24 |} in
  let self := PostureAnalyzer.__init__ None in
  analyze self pl = Return (BAD, 0) /\
  0 <> fst (thresholds self) /\
  0 <> snd (thresholds self) /\
  initial_work.check_posture (mp.landmark pl)
    {| mp.LEFT_EAR := 17; mp.LEFT_SHOULDER := 11; mp.LEFT_HIP := 23 |}
    None
  = (BAD, 0).
Proof.
  cbv zeta.
  set (p := {| mp.x := 1 / 2; mp.y := 1 / 2; mp.z := 0;
               mp.visibility := 1 |}).
  set (pl := {| mp.landmark := repeat p 24 |}).
  assert (E0 : _calculate_angle p p p = 0).
  { unfold _calculate_angle.
    set (t := atan2 (mp.y p - mp.y p) (mp.x p - mp.x p)).
    replace ((t - t) * 180 / PI) with 0 by (unfold Rdiv; ring).
    rewrite Rabs_R0. destruct (Rlt_dec 180 0); [lra | reflexivity]. }
  assert (Ha : analyze (PostureAnalyzer.__init__ None) pl
               = Return (BAD, 0)).
  { change (analyze (PostureAnalyzer.__init__ None) pl)
      with (Return (classify (_calculate_angle p p p)
                      (IZR config.GOOD_ANGLE) (IZR config.FAIR_ANGLE),
                    _calculate_angle p p p)).
    rewrite E0. unfold classify, config.GOOD_ANGLE, config.FAIR_ANGLE.
    destruct (Rge_dec 0 170); [lra |].
    destruct (Rge_dec 0 160); [lra | reflexivity]. }
  assert (Hg : 0 <> fst (thresholds (PostureAnalyzer.__init__ None)))
    by (cbn; unfold config.GOOD_ANGLE; lra).
  assert (Hf : 0 <> snd (thresholds (PostureAnalyzer.__init__ None)))
    by (cbn; unfold config.FAIR_ANGLE; lra).
  split; [exact Ha |]. split; [exact Hg |]. split; [exact Hf |].
  exact (analyze_check_posture_agree (PostureAnalyzer.__init__ None) pl
           BAD 0 Ha I Hg Hf).
Defined.
End ClassifierMore.

(* ================================================================== *)
(** * Further properties of the alert timer and of the break reminder *)

Section TimersMore.
Local Open Scope Q_scope.
Import features.

Lemma Qle_bool_false (a b : Q) : Qle_bool a b = false <-> b < a.
Proof.
  split.
  - intros H. apply Qnot_le_lt. intros Hle.
    apply Qle_bool_iff in Hle. congruence.
  - intros H. destruct (Qle_bool a b) eqn:E; [| reflexivity].
    apply Qle_bool_iff in E. lra.
Qed.

Lemma last_cons_default (ts : list Q) :
  forall t0 t1 : Q, last (t1 :: ts) t0 = last ts t1.
Proof.
  induction ts as [| t2 rest IH]; intros t0 t1; [reflexivity |].
  change (last (t1 :: t2 :: rest) t0) with (last (t2 :: rest) t0).
  now rewrite (IH t0 t2), (IH t1 t2).
Qed.

(** Appending an instant far enough after the last one keeps the spacing. *)
Lemma spaced_snoc (gap : Q) (ts : list Q) :
  forall t0 now : Q,
    spaced gap (t0 :: ts) = true ->
    Qle_bool gap (now - last ts t0) = true ->
    spaced gap (t0 :: ts ++ [now]) = true.
Proof.
  induction ts as [| t1 rest IH]; intros t0 now Hs Hn.
  - cbn in *. now rewrite Hn.
  - cbn [spaced] in Hs. apply andb_true_iff in Hs as [Hgap Hrest].
    rewrite last_cons_default in Hn.
    change (spaced gap (t0 :: (t1 :: rest) ++ [now]))
      with (Qle_bool gap (t1 - t0) && spaced gap (t1 :: rest ++ [now])).
    rewrite Hgap. cbn [andb]. now apply IH.
Qed.

(** What one call of [AlertManager.check] does to the bookkeeping. *)
Lemma alert_step_cases (now : Q) (status : Status) (self : AlertManager.t) :
  (snd (alert_step now status self) = false /\
   AlertManager.last_alert (fst (alert_step now status self))
   = AlertManager.last_alert self /\
   AlertManager.alert_count (fst (alert_step now status self))
   = AlertManager.alert_count self) \/
  (snd (alert_step now status self) = true /\
   status = BAD /\
   AlertManager.last_alert (fst (alert_step now status self)) = Some now /\
   AlertManager.alert_count (fst (alert_step now status self))
   = (AlertManager.alert_count self + 1)%Z /\
   match AlertManager.last_alert self with
   | Some last => Qle_bool (inject_Z config.ALERT_COOLDOWN) (now - last)
                  = true
   | None => True
   end /\
   exists started,
     AlertManager.bad_start self = Some started /\
     inject_Z config.BAD_DURATION <= now - started).
Proof.
  assert (E0 : Qle_bool (inject_Z config.BAD_DURATION) (now - now) = false).
  { apply Qle_bool_false.
    assert (E : now - now == 0) by ring. rewrite E. reflexivity. }
  unfold alert_step, AlertManager.check.
  destruct self as [[started |] [last |] n], status; cbn;
    try (left; repeat split; reflexivity);
    rewrite ?E0; try (left; repeat split; reflexivity);
    (destruct (Qle_bool (inject_Z config.BAD_DURATION) (now - started))
       eqn:Ed; [| left; repeat split; reflexivity]);
    try (destruct (Qle_bool (inject_Z config.ALERT_COOLDOWN) (now - last))
           eqn:Ec; [| left; repeat split; reflexivity]);
    right; repeat split; try reflexivity;
    exists started; (split; [reflexivity | now apply Qle_bool_iff]).
Qed.

(** Over any sequence of ticks, from any state, [alert_count] grows by
    exactly the number of ticks at which an alert was sent. *)
Theorem alert_count_counts (ticks : list (Q * Status))
    (self : AlertManager.t) :
  AlertManager.alert_count (fst (run_ticks alert_step ticks self))
  = (AlertManager.alert_count self
     + count_sent (snd (run_ticks alert_step ticks self)))%Z.
Proof.
  unfold count_sent. revert self.
  induction ticks as [| [now status] rest IH]; intros self.
  - cbn. lia.
  - cbn [run_ticks].
    pose proof (alert_step_cases now status self) as Hc.
    destruct (alert_step now status self) as [self' sent].
    specialize (IH self').
    destruct (run_ticks alert_step rest self') as [final flags].
    cbn [fst snd] in *.
    destruct Hc as [(Hs & _ & Hn) | (Hs & _ & _ & Hn & _)];
      subst sent; cbn [filter length]; lia.
Qed.

(** Over any sequence of ticks, from any state, two consecutive alerts are
    at least ALERT_COOLDOWN seconds apart, and the first one comes at
    least that long after the alert the state remembers. *)
Theorem alerts_spaced (ticks : list (Q * Status)) :
  forall self : AlertManager.t,
    let r := run_ticks alert_step ticks self in
    spaced (inject_Z config.ALERT_COOLDOWN)
      match AlertManager.last_alert self with
      | Some last => last :: sent_times ticks (snd r)
      | None => sent_times ticks (snd r)
      end = true.
Proof.
  cbv zeta.
  induction ticks as [| [now status] rest IH]; intros self.
  - cbn. destruct (AlertManager.last_alert self); reflexivity.
  - cbn [run_ticks].
    pose proof (alert_step_cases now status self) as Hc.
    destruct (alert_step now status self) as [self' sent].
    specialize (IH self').
    destruct (run_ticks alert_step rest self') as [final flags].
    cbn [fst snd] in *.
    destruct Hc as [(Hs & Hl & _) | (Hs & _ & Hl & _ & Hcool & _)];
      subst sent; cbn [sent_times].
    + now rewrite <- Hl.
    + rewrite Hl in IH.
      destruct (AlertManager.last_alert self) as [last |];
        [| exact IH].
      cbn [spaced]. cbn [spaced] in IH. now rewrite Hcool, IH.
Qed.

(** While every tick is BAD and less than BAD_DURATION seconds after
    [bad_start], nothing is sent and the bookkeeping stays as it is. *)
Lemma short_streak_from (started : Q) (ticks : list (Q * Status)) :
  forall self : AlertManager.t,
    AlertManager.bad_start self = Some started ->
    Forall (fun tick => snd tick = BAD /\
                        fst tick - started < inject_Z config.BAD_DURATION)
           ticks ->
    snd (run_ticks alert_step ticks self) = repeat false (length ticks) /\
    AlertManager.bad_start (fst (run_ticks alert_step ticks self))
    = Some started /\
    AlertManager.alert_count (fst (run_ticks alert_step ticks self))
    = AlertManager.alert_count self.
Proof.
  induction ticks as [| [now status] rest IH]; intros self Hs Hall.
  - cbn. now repeat split.
  - inversion Hall as [| tick rest' [Hst Hlt] Hrest]; subst.
    cbn [fst snd] in Hst, Hlt. subst status.
    cbn [run_ticks].
    pose proof (alert_step_cases now BAD self) as Hc.
    pose proof (check_bad_keeps_start now self) as Hk.
    unfold alert_step in *.
    destruct (AlertManager.check now BAD self) as [self' sent].
    cbn [fst snd] in *. rewrite Hs in Hk.
    destruct (IH self' Hk Hrest) as (Hflags & Hstart & Hcount).
    destruct (run_ticks _ rest self') as [final flags].
    cbn [fst snd length repeat] in *.
    destruct Hc as [(Hsent & _ & Hn) | (_ & _ & _ & _ & _ & s' & Es & Hge)].
    + rewrite Hsent, Hflags. repeat split; congruence.
    + rewrite Hs in Es. injection Es as <-. lra.
Qed.

(** A run of BAD ticks that all come less than BAD_DURATION seconds after
    the first of them, started while no bad posture is being timed, sends
    no alert; the timer then holds the instant of the first tick and
    [alert_count] is what it was. *)
Theorem short_streak_is_silent (t1 : Q) (rest : list (Q * Status))
    (self : AlertManager.t) :
  AlertManager.bad_start self = None ->
  Forall (fun tick => snd tick = BAD /\
                      fst tick - t1 < inject_Z config.BAD_DURATION)
         rest ->
  let r := run_ticks alert_step ((t1, BAD) :: rest) self in
  snd r = repeat false (S (length rest)) /\
  AlertManager.bad_start (fst r) = Some t1 /\
  AlertManager.alert_count (fst r) = AlertManager.alert_count self.
Proof.
  intros Hnone Hall. cbv zeta. cbn [run_ticks].
  pose proof (alert_step_cases t1 BAD self) as Hc.
  pose proof (check_bad_keeps_start t1 self) as Hk.
  unfold alert_step in *.
  destruct (AlertManager.check t1 BAD self) as [self' sent].
  cbn [fst snd] in *. rewrite Hnone in Hk.
  destruct (short_streak_from t1 rest self' Hk Hall)
    as (Hflags & Hstart & Hcount).
  unfold alert_step in *.
  destruct (run_ticks _ rest self') as [final flags].
  cbn [fst snd] in *.
  destruct Hc as [(Hsent & _ & Hn) | (_ & _ & _ & _ & _ & s' & Es & _)];
    [| congruence].
  rewrite Hsent, Hflags. cbn [repeat]. repeat split; congruence.
Qed.

Lemma short_streak_is_silent_witness :
  let rest := [(60, BAD); (120, BAD); (179, BAD)] in
  AlertManager.bad_start AlertManager.__init__ = None /\
  Forall (fun tick => snd tick = BAD /\
                      fst tick - 0 < inject_Z config.BAD_DURATION) rest /\
  snd (run_ticks alert_step ((0, BAD) :: rest) AlertManager.__init__)
  = [false; false; false; false].
Proof.
  cbv zeta.
  assert (Hn : AlertManager.bad_start AlertManager.__init__ = None)
    by reflexivity.
  assert (Hall : Forall (fun tick => snd tick = BAD /\
                           fst tick - 0 < inject_Z config.BAD_DURATION)
                   [(60, BAD); (120, BAD); (179, BAD)]).
  { repeat constructor. }
  split; [exact Hn |]. split; [exact Hall |].
  exact (proj1 (short_streak_is_silent 0 _ AlertManager.__init__ Hn Hall)).
Defined.

(** [get_stats] after a call of [check]: [currently_bad] tells whether the
    status was BAD, [total_alerts] is [alert_count], and after a BAD call
    [bad_duration] is the time since the start of the streak, unless that
    start is the instant 0, for which it is 0. *)
Theorem get_stats_after_check (now later : Q) (status : Status)
    (self : AlertManager.t) :
  let self' := fst (AlertManager.check now status self) in
  let stats := AlertManager.get_stats later self' in
  AlertManager.currently_bad stats = Status_eqb status BAD /\
  AlertManager.total_alerts stats = AlertManager.alert_count self' /\
  AlertManager.bad_duration stats
  = if Status_eqb status BAD then
      let started := match AlertManager.bad_start self with
                     | Some started => started
                     | None => now
                     end in
      if Qeq_bool started 0 then 0 else later - started
    else 0.
Proof.
  cbv zeta. unfold AlertManager.get_stats.
  destruct (Status_eqb status BAD) eqn:Eb.
  - assert (status = BAD) by (destruct status; try discriminate; reflexivity).
    subst status. rewrite check_bad_keeps_start. cbn. now repeat split.
  - assert (Hne : status <> BAD) by (intros ->; discriminate).
    rewrite (check_not_bad_resets now status self Hne). cbn.
    now repeat split.
Qed.

(** What one call of [BreakReminder.check] does. *)
Lemma break_step_cases (now : Q) (status : Status) (self : BreakReminder.t) :
  (snd (break_step now status self) = false /\
   fst (break_step now status self) = self /\
   now - BreakReminder.last_break self < inject_Z config.BREAK_INTERVAL) \/
  (snd (break_step now status self) = true /\
   fst (break_step now status self)
   = {| BreakReminder.last_break := now;
        BreakReminder.break_count := BreakReminder.break_count self + 1 |} /\
   Qle_bool (inject_Z config.BREAK_INTERVAL)
     (now - BreakReminder.last_break self) = true).
Proof.
  unfold break_step, BreakReminder.check.
  destruct (Qle_bool _ _) eqn:E; [right | left]; cbn [fst snd];
    repeat split; try reflexivity.
  now apply Qle_bool_false.
Qed.

(** Over any sequence of calls of [BreakReminder.check], from any state:
    two consecutive reminders are at least BREAK_INTERVAL seconds apart,
    the first comes at least that long after [last_break], [break_count]
    grows by the number of reminders, and [last_break] ends as the instant
    of the last reminder. *)
Theorem break_reminders_spaced (ticks : list (Q * Status)) :
  forall self : BreakReminder.t,
    let r := run_ticks break_step ticks self in
    let times := sent_times ticks (snd r) in
    spaced (inject_Z config.BREAK_INTERVAL)
      (BreakReminder.last_break self :: times) = true /\
    BreakReminder.break_count (fst r)
    = (BreakReminder.break_count self + count_sent (snd r))%Z /\
    BreakReminder.last_break (fst r)
    = last times (BreakReminder.last_break self).
Proof.
  cbv zeta. unfold count_sent.
  induction ticks as [| [now status] rest IH]; intros self.
  - cbn. repeat split. lia.
  - cbn [run_ticks].
    pose proof (break_step_cases now status self) as Hc.
    destruct (break_step now status self) as [self' sent].
    specialize (IH self').
    destruct (run_ticks break_step rest self') as [final flags].
    cbn [fst snd] in *. destruct IH as (Hsp & Hcnt & Hlast).
    destruct Hc as [(Hs & Hself & _) | (Hs & Hself & Hgap)];
      subst sent self'; cbn [sent_times filter length].
    + repeat split; assumption.
    + cbn [BreakReminder.last_break BreakReminder.break_count] in *.
      repeat split.
      * cbn [spaced]. cbn [spaced] in Hsp.
        destruct (sent_times rest flags) eqn:Et.
        -- now rewrite Hgap.
        -- now rewrite Hgap, Hsp.
      * lia.
      * rewrite Hlast. symmetry. apply last_cons_default.
Qed.

(** [time_until_next_break] is never negative, and it is 0 exactly at the
    instants at which [check] would send a reminder. *)
Theorem time_until_next_break_spec (now : Q) (self : BreakReminder.t) :
  let remaining :=
    BreakReminder.time_until_next_break (BreakReminder.get_stats now self) in
  0 <= remaining /\
  Qeq_bool remaining 0 = snd (break_step now GOOD self) /\
  (remaining == 0 \/
   remaining == inject_Z config.BREAK_INTERVAL
                - (now - BreakReminder.last_break self)).
Proof.
  cbv zeta. unfold BreakReminder.get_stats, break_step, BreakReminder.check.
  cbn [BreakReminder.time_until_next_break].
  set (elapsed := now - BreakReminder.last_break self).
  destruct (Qle_bool (inject_Z config.BREAK_INTERVAL - elapsed) 0) eqn:E.
  - apply Qle_bool_iff in E.
    assert (H : Qle_bool (inject_Z config.BREAK_INTERVAL) elapsed = true).
    { apply Qle_bool_iff. lra. }
    rewrite H. cbn. repeat split; try discriminate. now left.
  - apply Qle_bool_false in E.
    assert (H : Qle_bool (inject_Z config.BREAK_INTERVAL) elapsed = false).
    { apply Qle_bool_false. lra. }
    rewrite H. cbn [snd]. repeat split.
    + lra.
    + destruct (Qeq_bool _ 0) eqn:Eq; [| reflexivity].
      apply Qeq_bool_iff in Eq. lra.
    + now right.
Qed.
End TimersMore.

(* ================================================================== *)
(** * Further properties of the session logger *)

Section LoggerMore.
Local Open Scope Q_scope.
Import features features.SessionLogger.

(** The two things a call of [record] can do. *)
Lemma record_cases (now : Q) (s : Status) (a : R) (self : SessionLogger.t) :
  (record now s a self = self) \/
  (record now s a self
   = {| log := log self ++ [ {| timestamp := now; status := s;
                                angle := round a 2 |} ];
        session_start := session_start self;
        last_record := now |} /\
   Qle_bool (inject_Z config.RECORD_EVERY) (now - last_record self) = true).
Proof.
  unfold record. destruct (Qle_bool _ _); [right | left]; auto.
Qed.

Lemma record_all_keeps_spacing (calls : list (Q * Status * R)) :
  forall (self : SessionLogger.t) (t0 : Q) (before : list Q),
    spaced (inject_Z config.RECORD_EVERY) (t0 :: before) = true ->
    last before t0 = last_record self ->
    spaced (inject_Z config.RECORD_EVERY)
      (t0 :: before ++ appended_at calls self) = true /\
    last (before ++ appended_at calls self) t0
    = last_record (record_all calls self) /\
    length (log (record_all calls self))
    = (length (log self) + length (appended_at calls self))%nat.
Proof.
  induction calls as [| [[now s] a] rest IH]; intros self t0 before Hs Hl.
  - cbn. rewrite app_nil_r. repeat split; auto.
  - cbn [record_all appended_at].
    destruct (record_cases now s a self) as [E | [E Hgap]]; rewrite E.
    + rewrite Nat.ltb_irrefl. now apply IH.
    + cbn [log]. rewrite length_app. cbn [length].
      assert (Hlt : (length (log self) <? length (log self) + 1)%nat
                    = true) by (apply Nat.ltb_lt; lia).
      rewrite Hlt.
      replace (before ++ now :: appended_at rest
                 {| log := log self ++ [ {| timestamp := now; status := s;
                                            angle := round a 2 |} ];
                    session_start := session_start self;
                    last_record := now |})
        with ((before ++ [now]) ++ appended_at rest
                 {| log := log self ++ [ {| timestamp := now; status := s;
                                            angle := round a 2 |} ];
                    session_start := session_start self;
                    last_record := now |})
        by (rewrite <- app_assoc; reflexivity).
      match goal with
      | |- context [record_all rest ?s1] =>
          destruct (IH s1 t0 (before ++ [now])) as (H1 & H2 & H3)
      end.
      * apply spaced_snoc; [exact Hs |]. now rewrite Hl.
      * cbn [last_record]. apply last_last.
      * repeat split; try assumption.
        rewrite H3. cbn [log]. rewrite length_app. cbn [length]. lia.
Qed.

(** Whatever the calls of [record] made on a logger created at [t0], the
    clock readings of the calls that append an entry are at least
    RECORD_EVERY seconds apart, the first of them at least that long after
    [t0]; [last_record] is the last of these readings (or [t0] while none
    has appended), and the log holds one entry for each of them. *)
Theorem record_all_spaced (calls : list (Q * Status * R)) (t0 : Q) :
  let self := record_all calls (SessionLogger.__init__ t0) in
  let times := appended_at calls (SessionLogger.__init__ t0) in
  spaced (inject_Z config.RECORD_EVERY) (t0 :: times) = true /\
  last_record self = last times t0 /\
  length (log self) = length times.
Proof.
  cbv zeta.
  destruct (record_all_keeps_spacing calls (SessionLogger.__init__ t0) t0
              []) as (Hs & Hl & Hn); try reflexivity.
  cbn [app] in *. now repeat split.
Qed.

(** Calls of [record] only append: the old log is kept as a prefix, at
    most one entry is added per call, every added entry carries the
    instant and status of one of the calls with its angle rounded to two
    decimals, and [session_start] does not change. *)
Theorem record_all_appends (calls : list (Q * Status * R)) :
  forall self : SessionLogger.t,
  exists added : list LogEntry,
    log (record_all calls self) = log self ++ added /\
    (length added <= length calls)%nat /\
    Forall (fun e =>
              In (timestamp e, status e, angle e)
                 (map (fun call => (fst (fst call), snd (fst call),
                                    round (snd call) 2)) calls))
           added /\
    session_start (record_all calls self) = session_start self.
Proof.
  induction calls as [| [[now s] a] rest IH]; intros self.
  - exists []. cbn. rewrite app_nil_r. repeat split; auto.
  - cbn [record_all].
    destruct (record_cases now s a self) as [E | [E _]]; rewrite E.
    + destruct (IH self) as (added & Hlog & Hlen & Hall & Hst).
      exists added. repeat split; auto.
      * cbn [length]. lia.
      * eapply Forall_impl; [| exact Hall]. intros e He. now right.
    + match goal with
      | |- context [record_all rest ?s1] =>
          destruct (IH s1) as (added & Hlog & Hlen & Hall & Hst)
      end.
      cbn [log session_start] in *.
      exists ({| timestamp := now; status := s; angle := round a 2 |}
              :: added).
      repeat split.
      * rewrite Hlog, <- app_assoc. reflexivity.
      * cbn [length]. lia.
      * constructor; [now left |].
        eapply Forall_impl; [| exact Hall]. intros e He. now right.
      * exact Hst.
Qed.

Lemma count_status_app (s : Status) (l1 l2 : list LogEntry) :
  count_status s (l1 ++ l2) = (count_status s l1 + count_status s l2)%Z.
Proof.
  unfold count_status. rewrite filter_app, length_app. lia.
Qed.

Lemma count_status_single (s : Status) (e : LogEntry) :
  count_status s [e] = if Status_eqb (status e) s then 1%Z else 0%Z.
Proof.
  unfold count_status. cbn [filter].
  destruct (Status_eqb (status e) s); reflexivity.
Qed.

(** Rounding to one decimal is monotone. *)
Lemma round_half_even_Q_mono (p q : Q) :
  p <= q -> (round_half_even_Q p <= round_half_even_Q q)%Z.
Proof.
  intros Hpq.
  destruct (Z_le_gt_dec (round_half_even_Q p) (round_half_even_Q q))
    as [H | H]; [exact H | exfalso].
  pose proof (round_half_even_Q_near p) as [_ Hp].
  pose proof (round_half_even_Q_near q) as [Hq _].
  assert (H1 : (round_half_even_Q q + 1 <= round_half_even_Q p)%Z) by lia.
  rewrite Zle_Qle, inject_Z_plus in H1. change (inject_Z 1) with 1 in H1.
  assert (E : p == q) by lra.
  rewrite (round_half_even_Q_comp p q E) in H. lia.
Qed.

Lemma round_Q_1_mono (p q : Q) : p <= q -> round_Q p 1 <= round_Q q 1.
Proof.
  intros Hpq. rewrite !round_Q_1_eq.
  assert (H : (round_half_even_Q (p * 10) <= round_half_even_Q (q * 10))%Z).
  { apply round_half_even_Q_mono. lra. }
  rewrite Zle_Qle in H.
  unfold Qdiv. change (/ 10) with (1 # 10). lra.
Qed.

Lemma inject_Z_pos (n : Z) : (0 < n)%Z -> 0 < inject_Z n.
Proof. intros H. change 0 with (inject_Z 0). now rewrite <- Zlt_Qlt. Qed.

(** Comparing two quotients of integers with positive denominators. *)
Lemma Zdiv_Qle (a b c d : Z) :
  (0 < b)%Z -> (0 < d)%Z -> (a * d <= c * b)%Z ->
  inject_Z a / inject_Z b <= inject_Z c / inject_Z d.
Proof.
  intros Hb Hd H.
  apply Qle_shift_div_l; [now apply inject_Z_pos |].
  unfold Qdiv. rewrite <- Qmult_assoc, (Qmult_comm (/ _)), Qmult_assoc.
  apply Qle_shift_div_r; [now apply inject_Z_pos |].
  rewrite <- !inject_Z_mult, <- Zle_Qle. lia.
Qed.

Lemma length_pos (l : list LogEntry) :
  l <> [] -> (0 < Z.of_nat (length l))%Z.
Proof. destruct l; [congruence | cbn [length]; lia]. Qed.

(** A log without UNKNOWN entries scores at least 20: on a non-empty log
    whose statuses are all GOOD, FAIR or BAD, [get_score] lies in
    [20, 100]. *)
Theorem get_score_known_statuses (self : SessionLogger.t) :
  log self <> [] ->
  count_status UNKNOWN (log self) = 0%Z ->
  20 <= get_score self <= 100.
Proof.
  intros Hne Hu. rewrite (get_score_nonempty self Hne).
  apply (round_Q_1_bounds _ 20 100).
  split; [| now apply weighted_mean_bounds].
  unfold weighted_mean.
  pose proof (count_status_total (log self)) as Ht.
  pose proof (count_status_nonneg GOOD (log self)).
  pose proof (count_status_nonneg FAIR (log self)).
  pose proof (length_pos (log self) Hne) as Hpos.
  apply Qle_shift_div_l; [now apply inject_Z_pos |].
  rewrite <- inject_Z_mult, <- Zle_Qle. lia.
Qed.

Lemma get_score_known_statuses_witness :
  let self :=
    {| log := [ {| timestamp := 5; status := BAD; angle := 150%R |};
                {| timestamp := 10; status := BAD; angle := 151%R |} ];
       session_start := 0;
       last_record := 10 |} in
  log self <> [] /\
  count_status UNKNOWN (log self) = 0%Z /\
  20 <= get_score self <= 100.
Proof.
  cbv zeta.
  set (self := {| log := [ {| timestamp := 5; status := BAD;
                              angle := 150%R |};
                           {| timestamp := 10; status := BAD;
                              angle := 151%R |} ];
                  session_start := 0; last_record := 10 |}).
  assert (Hne : log self <> []) by discriminate.
  assert (Hu : count_status UNKNOWN (log self) = 0%Z) by reflexivity.
  split; [exact Hne |]. split; [exact Hu |].
  exact (get_score_known_statuses self Hne Hu).
Defined.

Lemma get_score_range (self : SessionLogger.t) :
  0 <= get_score self <= 100.
Proof.
  assert (Hd : log self = [] \/ log self <> []).
  { destruct (log self); [now left | right; discriminate]. }
  destruct Hd as [Hnil | Hne].
  - unfold get_score. rewrite Hnil. split; discriminate.
  - rewrite (get_score_nonempty self Hne).
    apply (round_Q_1_bounds _ 0 100). now apply weighted_mean_bounds.
Qed.

(** The score with one more entry, against the score before. *)
Lemma weighted_mean_snoc (l : list LogEntry) (e : LogEntry) :
  l <> [] ->
  (status e = GOOD -> weighted_mean l <= weighted_mean (l ++ [e])) /\
  (status e = BAD -> count_status UNKNOWN l = 0%Z ->
   weighted_mean (l ++ [e]) <= weighted_mean l).
Proof.
  intros Hne.
  pose proof (count_status_total l) as Ht.
  pose proof (count_status_nonneg GOOD l).
  pose proof (count_status_nonneg FAIR l).
  pose proof (count_status_nonneg BAD l).
  pose proof (count_status_nonneg UNKNOWN l).
  pose proof (length_pos l Hne) as Hpos.
  unfold weighted_mean.
  rewrite !count_status_app, !count_status_single, length_app.
  cbn [length].
  split; intros Hs; rewrite Hs; cbn [Status_eqb].
  - apply Zdiv_Qle; nia.
  - intros Hu. apply Zdiv_Qle; nia.
Qed.

(** Recording a GOOD sample never lowers the score; on a non-empty log
    without UNKNOWN entries, recording a BAD sample never raises it. *)
Theorem score_after_record (now : Q) (a : R) (self : SessionLogger.t) :
  get_score self <= get_score (record now GOOD a self) /\
  (log self <> [] ->
   count_status UNKNOWN (log self) = 0%Z ->
   get_score (record now BAD a self) <= get_score self).
Proof.
  assert (Hsnoc : forall e : LogEntry, log self ++ [e] <> []).
  { intros e H. apply app_eq_nil in H. destruct H. discriminate. }
  split.
  - destruct (record_cases now GOOD a self) as [E | [E _]]; rewrite E;
      [apply Qle_refl |].
    assert (Hd : log self = [] \/ log self <> []).
    { destruct (log self); [now left | right; discriminate]. }
    destruct Hd as [Hnil | Hne].
    + unfold get_score at 1. rewrite Hnil. apply get_score_range.
    + rewrite (get_score_nonempty self Hne).
      rewrite get_score_nonempty by apply Hsnoc.
      apply round_Q_1_mono. cbn [log].
      now apply (proj1 (weighted_mean_snoc (log self) _ Hne)).
  - intros Hne Hu.
    destruct (record_cases now BAD a self) as [E | [E _]]; rewrite E;
      [apply Qle_refl |].
    rewrite (get_score_nonempty self Hne).
    rewrite get_score_nonempty by apply Hsnoc.
    apply round_Q_1_mono. cbn [log].
    now apply (proj2 (weighted_mean_snoc (log self) _ Hne)).
Qed.

Lemma score_after_record_witness :
  let self :=
    {| log := [ {| timestamp := 5; status := GOOD; angle := 175%R |};
                {| timestamp := 10; status := FAIR; angle := 165%R |} ];
       session_start := 0;
       last_record := 10 |} in
  log self <> [] /\
  count_status UNKNOWN (log self) = 0%Z /\
  get_score (record 15 BAD 150 self) <= get_score self.
Proof.
  cbv zeta.
  set (self := {| log := [ {| timestamp := 5; status := GOOD;
                              angle := 175%R |};
                           {| timestamp := 10; status := FAIR;
                              angle := 165%R |} ];
                  session_start := 0; last_record := 10 |}).
  assert (Hne : log self <> []) by discriminate.
  assert (Hu : count_status UNKNOWN (log self) = 0%Z) by reflexivity.
  split; [exact Hne |]. split; [exact Hu |].
  exact (proj2 (score_after_record 15 150%R self) Hne Hu).
Defined.
End LoggerMore.

(* ================================================================== *)
(** * Properties of the session summary *)

Section SummaryMore.
Local Open Scope Q_scope.
Import features features.SessionLogger.

(** The share of one status, in percent, before rounding. *)
Lemma share_bounds (c total : Z) :
  (0 <= c <= total)%Z -> (0 < total)%Z ->
  0 <= inject_Z c / inject_Z total * 100 <= 100.
Proof.
  intros [Hc Hct] Hpos.
  pose proof (inject_Z_pos total Hpos) as Ht.
  assert (H0 : 0 <= inject_Z c / inject_Z total).
  { apply Qle_shift_div_l; [exact Ht |]. rewrite Qmult_0_l.
    change 0 with (inject_Z 0). now rewrite <- Zle_Qle. }
  assert (H1 : inject_Z c / inject_Z total <= 1).
  { apply Qle_shift_div_r; [exact Ht |]. rewrite Qmult_1_l.
    now rewrite <- Zle_Qle. }
  lra.
Qed.

Lemma shares_total (g f b total : Z) :
  (g + f + b = total)%Z -> (0 < total)%Z ->
  inject_Z g / inject_Z total * 100 + inject_Z f / inject_Z total * 100
  + inject_Z b / inject_Z total * 100 == 100.
Proof.
  intros Hsum Hpos.
  pose proof (inject_Z_pos total Hpos) as Ht.
  rewrite <- Hsum, !inject_Z_plus in *.
  field. lra.
Qed.

(** [get_summary] on an empty log is all zeros, the duration included,
    whatever the time, and has no count.  On a non-empty log [duration]
    is the time since [session_start], [data_points] the length of the
    log, [score] the value of [get_score], the three counts the numbers of
    GOOD, FAIR and BAD entries, and each percentage lies in [0, 100]
    within 0.05 of the share of its own status.  When the log has no
    UNKNOWN entry the three counts add up to [data_points] and the three
    percentages add up to 100 within 0.15. *)
Theorem get_summary_spec (now : Q) (self : SessionLogger.t) :
  (log self = [] ->
   get_summary now self
   = {| duration := 0; data_points := 0; score := 0;
        good_percent := 0; fair_percent := 0; bad_percent := 0;
        good_count := None; fair_count := None; bad_count := None |}) /\
  (log self <> [] ->
   let s := get_summary now self in
   let good := count_status GOOD (log self) in
   let fair := count_status FAIR (log self) in
   let bad := count_status BAD (log self) in
   let share c := inject_Z c / inject_Z (data_points s) * 100 in
   duration s = now - session_start self /\
   data_points s = Z.of_nat (length (log self)) /\
   score s = get_score self /\
   good_count s = Some good /\
   fair_count s = Some fair /\
   bad_count s = Some bad /\
   (0 <= good_percent s <= 100 /\
    share good - (1 # 20) <= good_percent s <= share good + (1 # 20)) /\
   (0 <= fair_percent s <= 100 /\
    share fair - (1 # 20) <= fair_percent s <= share fair + (1 # 20)) /\
   (0 <= bad_percent s <= 100 /\
    share bad - (1 # 20) <= bad_percent s <= share bad + (1 # 20)) /\
   (count_status UNKNOWN (log self) = 0%Z ->
    (good + fair + bad = data_points s)%Z /\
    100 - (3 # 20) <= good_percent s + fair_percent s + bad_percent s
      <= 100 + (3 # 20))).
Proof.
  split.
  - intros E. unfold get_summary. now rewrite E.
  - intros Hne. cbv zeta.
    pose proof (count_status_total (log self)) as Ht.
    pose proof (count_status_nonneg GOOD (log self)).
    pose proof (count_status_nonneg FAIR (log self)).
    pose proof (count_status_nonneg BAD (log self)).
    pose proof (count_status_nonneg UNKNOWN (log self)).
    pose proof (length_pos (log self) Hne) as Hpos.
    unfold get_summary.
    destruct (log self) as [| e rest] eqn:El; [congruence |].
    rewrite <- El in *.
    cbn [duration score good_percent fair_percent bad_percent data_points
           good_count fair_count bad_count].
    set (total := Z.of_nat (length (log self))) in *.
    set (g := count_status GOOD (log self)) in *.
    set (f := count_status FAIR (log self)) in *.
    set (b := count_status BAD (log self)) in *.
    pose proof (round_Q_1_near (inject_Z g / inject_Z total * 100)) as Ng.
    pose proof (round_Q_1_near (inject_Z f / inject_Z total * 100)) as Nf.
    pose proof (round_Q_1_near (inject_Z b / inject_Z total * 100)) as Nb.
    assert (Bg : 0 <= round_Q (inject_Z g / inject_Z total * 100) 1 <= 100).
    { apply (round_Q_1_bounds _ 0 100). apply share_bounds; lia. }
    assert (Bf : 0 <= round_Q (inject_Z f / inject_Z total * 100) 1 <= 100).
    { apply (round_Q_1_bounds _ 0 100). apply share_bounds; lia. }
    assert (Bb : 0 <= round_Q (inject_Z b / inject_Z total * 100) 1 <= 100).
    { apply (round_Q_1_bounds _ 0 100). apply share_bounds; lia. }
    split; [reflexivity |]. split; [reflexivity |].
    split; [reflexivity |]. split; [reflexivity |].
    split; [reflexivity |]. split; [reflexivity |].
    split; [now split |]. split; [now split |]. split; [now split |].
    intros Hu. split; [lia |].
    pose proof (shares_total g f b total ltac:(lia) Hpos). lra.
Qed.

Lemma get_summary_spec_witness :
  let self :=
    {| log := [ {| timestamp := 5; status := GOOD; angle := 175%R |};
                {| timestamp := 10; status := FAIR; angle := 165%R |};
                {| timestamp := 15; status := BAD; angle := 150%R |} ];
       session_start := 0;
       last_record := 15 |} in
  log self <> [] /\
  count_status UNKNOWN (log self) = 0%Z /\
  100 - (3 # 20)
  <= good_percent (get_summary 20 self) + fair_percent (get_summary 20 self)
     + bad_percent (get_summary 20 self)
  <= 100 + (3 # 20).
Proof.
  cbv zeta.
  set (self := {| log := [ {| timestamp := 5; status := GOOD;
                              angle := 175%R |};
                           {| timestamp := 10; status := FAIR;
                              angle := 165%R |};
                           {| timestamp := 15; status := BAD;
                              angle := 150%R |} ];
                  session_start := 0; last_record := 15 |}).
  assert (Hne : log self <> []) by discriminate.
  assert (Hu : count_status UNKNOWN (log self) = 0%Z) by reflexivity.
  split; [exact Hne |]. split; [exact Hu |].
  pose proof (proj2 (get_summary_spec 20 self) Hne) as H. cbv zeta in H.
  destruct H as (_ & _ & _ & _ & _ & _ & _ & _ & _ & H).
  exact (proj2 (H Hu)).
Defined.
End SummaryMore.

(* ================================================================== *)
(** * The logged angle and one iteration with a person in the frame *)

Section LoggedAngle.
Local Open Scope R_scope.

(** The nearest integer is within a half. *)
Lemma round_half_even_near (r : R) :
  r - 1 / 2 <= IZR (round_half_even r) <= r + 1 / 2.
Proof.
  pose proof (base_Int_part r) as [Hlo Hhi].
  unfold round_half_even.
  destruct (Rlt_dec (r - IZR (Int_part r)) (1 / 2)) as [H1 | H1];
    [lra |].
  destruct (Rlt_dec (1 / 2) (r - IZR (Int_part r))) as [H2 | H2].
  - rewrite plus_IZR. lra.
  - destruct (Z.even (Int_part r)); rewrite ?plus_IZR; lra.
Qed.

(** Rounding to two decimals moves a value by at most 0.005. *)
Lemma round_2_near (a : R) :
  a - 1 / 200 <= round a 2 <= a + 1 / 200.
Proof.
  unfold round.
  pose proof (round_half_even_near (a * 10 ^ 2)) as H.
  set (k := IZR (round_half_even (a * 10 ^ 2))) in *.
  simpl pow in *. lra.
Qed.

(** Rounding to two decimals keeps an angle inside [0, 180]. *)
Lemma round_2_range (a : R) :
  0 <= a <= 180 -> 0 <= round a 2 <= 180.
Proof.
  intros Ha. unfold round.
  pose proof (round_half_even_near (a * 10 ^ 2)) as H.
  set (k := round_half_even (a * 10 ^ 2)) in *.
  simpl pow in *.
  assert (Hk0 : (0 <= k)%Z).
  { assert (Hlt : (- 1 < k)%Z) by (apply lt_IZR; lra). lia. }
  assert (Hk1 : (k <= 18000)%Z).
  { assert (Hlt : (k < 18001)%Z) by (apply lt_IZR; lra). lia. }
  apply IZR_le in Hk0, Hk1. lra.
Qed.
End LoggedAngle.

Section MonitoringLoopMore.
Local Open Scope Q_scope.
Import features features.SessionLogger main.

(** An entry of the log after [record(status, a)] with [a] in [0, 180]
    is an entry of the log before, or it carries the instant and status
    of the call and an angle in [0, 180] within 0.005 of [a]. *)
Theorem recorded_angle (now : Q) (s : Status) (a : R)
    (self : SessionLogger.t) :
  (0 <= a <= 180)%R ->
  Forall (fun e =>
            In e (log self) \/
            (timestamp e = now /\ status e = s /\
             (a - 1 / 200 <= angle e <= a + 1 / 200)%R /\
             (0 <= angle e <= 180)%R))
         (log (record now s a self)).
Proof.
  intros Ha.
  destruct (record_cases now s a self) as [E | [E _]]; rewrite E.
  - apply Forall_forall. intros e He. now left.
  - cbn [log]. apply Forall_app. split.
    + apply Forall_forall. intros e He. now left.
    + constructor; [| constructor]. right. cbn.
      repeat split; try apply round_2_near; now apply round_2_range.
Qed.

Lemma recorded_angle_witness :
  (0 <= 172 <= 180)%R /\
  Forall (fun e =>
            In e (log (SessionLogger.__init__ 0)) \/
            (timestamp e = 5 /\ status e = GOOD /\
             (172 - 1 / 200 <= angle e <= 172 + 1 / 200)%R /\
             (0 <= angle e <= 180)%R))
         (log (record 5 GOOD 172 (SessionLogger.__init__ 0))).
Proof.
  assert (Ha : (0 <= 172 <= 180)%R) by lra.
  split; [exact Ha |].
  exact (recorded_angle 5 GOOD 172%R (SessionLogger.__init__ 0) Ha).
Defined.

Lemma check_sends_at_most_one (now : Q) (status : Status)
    (self : AlertManager.t) :
  (length (snd (AlertManager.check now status self)) <= 1)%nat.
Proof.
  unfold AlertManager.check.
  destruct (Status_eqb status BAD); [| cbn; lia].
  destruct (Qle_bool _ _); [| cbn; lia].
  destruct (match _ with Some _ => _ | None => _ end); cbn; lia.
Qed.

Lemma break_sends_at_most_one (now : Q) (self : BreakReminder.t) :
  (length (snd (BreakReminder.check now self)) <= 1)%nat.
Proof.
  unfold BreakReminder.check. destruct (Qle_bool _ _); cbn; lia.
Qed.

(** One iteration of [main_loop] with a person in the frame.  On a
    landmark list of fewer than 24 entries it raises IndexError before any
    component is touched.  Otherwise it calls the three components once
    each with the status and angle of [analyze], requests at most two
    notifications, shows a tier other than UNKNOWN with an angle in
    [0, 180] and the score of the updated log, and adds no UNKNOWN entry
    to the log. *)
Theorem main_loop_body_person (analyzer : posture_core.PostureAnalyzer.t)
    (now : Q) (pl : mp.PoseLandmarks) (m : Monitors) :
  ((length (mp.landmark pl) <= 23)%nat /\
   main_loop_body analyzer now (Some pl) m = Raise IndexError) \/
  (exists status angle,
     posture_core.PostureAnalyzer.analyze analyzer pl
     = Return (status, angle) /\
     let logger' := record now status angle (logger m) in
     let sent := snd (AlertManager.check now status (alerts m))
                 ++ snd (BreakReminder.check now (breaks m)) in
     main_loop_body analyzer now (Some pl) m
     = Return ({| alerts := fst (AlertManager.check now status (alerts m));
                  breaks := fst (BreakReminder.check now (breaks m));
                  logger := logger' |},
               sent,
               {| shown_status := status; shown_angle := angle;
                  shown_score := get_score logger' |}) /\
     (length sent <= 2)%nat /\
     Status_eqb status UNKNOWN = false /\
     (0 <= angle <= 180)%R /\
     count_status UNKNOWN (log logger')
     = count_status UNKNOWN (log (logger m))).
Proof.
  destruct (Nat.lt_ge_cases 23 (length (mp.landmark pl))) as [Hlen | Hlen].
  - destruct (analyze_total analyzer pl Hlen) as (status & angle & Ha).
    destruct (analyze_in_range analyzer pl status angle Ha)
      as [Hrange Hknown].
    right. exists status, angle. split; [exact Ha |]. cbv zeta.
    repeat split; try exact Hknown; try apply Hrange.
    + unfold main_loop_body. rewrite Ha. cbn [bind].
      destruct (AlertManager.check now status (alerts m)).
      destruct (BreakReminder.check now (breaks m)). reflexivity.
    + rewrite length_app.
      pose proof (check_sends_at_most_one now status (alerts m)).
      pose proof (break_sends_at_most_one now (breaks m)). lia.
    + destruct (record_cases now status angle (logger m)) as [E | [E _]];
        rewrite E; [reflexivity |].
      cbn [log]. rewrite count_status_app, count_status_single.
      cbn [features.status]. rewrite Hknown. lia.
  - left. split; [exact Hlen |].
    unfold main_loop_body. now rewrite (analyze_raises analyzer pl Hlen).
Qed.
End MonitoringLoopMore.

(* ================================================================== *)
(** * Further properties of the calibration *)

Section CalibrationMore.
Local Open Scope R_scope.
Import posture_core posture_core.PostureAnalyzer.

(** The observation loop only adds angles of [analyze], one per capture
    at most, and it can only fail with the IndexError of [analyze]. *)
Lemma calibrate_collect_range (analyzer : PostureAnalyzer.t)
    (captures : list Capture) :
  forall angles0 : list R,
    Forall (fun a => 0 <= a <= 180) angles0 ->
    match calibrate_collect analyzer captures angles0 with
    | Return angles =>
        Forall (fun a => 0 <= a <= 180) angles /\
        (length angles <= length angles0 + length captures)%nat
    | Raise e => e = IndexError
    end.
Proof.
  induction captures as [| c rest IH]; intros angles0 H0.
  - cbn. split; [exact H0 | lia].
  - cbn [calibrate_collect]. destruct c as [| [pl |] key_q].
    + specialize (IH angles0 H0).
      destruct (calibrate_collect analyzer rest angles0);
        [| exact IH].
      destruct IH as [Hr Hl]. split; [exact Hr | cbn [length]; lia].
    + destruct (Nat.lt_ge_cases 23 (length (mp.landmark pl)))
        as [Hlen | Hlen];
        [destruct (analyze_total analyzer pl Hlen) as (status & angle & Ha);
         destruct (analyze_in_range analyzer pl status angle Ha)
           as [Hrange _]
        | pose proof (analyze_raises analyzer pl Hlen) as Hraise].
      * rewrite Ha. cbn [bind snd].
        assert (H1 : Forall (fun a => 0 <= a <= 180) (angles0 ++ [angle])).
        { apply Forall_app. split; [exact H0 |]. now constructor. }
        destruct key_q.
        -- split; [exact H1 |]. rewrite length_app. cbn [length]. lia.
        -- specialize (IH _ H1).
           destruct (calibrate_collect analyzer rest (angles0 ++ [angle]));
             [| exact IH].
           destruct IH as [Hr Hl]. split; [exact Hr |].
           rewrite length_app in Hl. cbn [length] in *. lia.
      * rewrite Hraise. reflexivity.
    + cbn [bind]. destruct key_q.
      * split; [exact H0 | cbn [length]; lia].
      * specialize (IH angles0 H0).
        destruct (calibrate_collect analyzer rest angles0); [| exact IH].
        destruct IH as [Hr Hl]. split; [exact Hr | cbn [length]; lia].
Qed.

(** [min] of a non-empty list: a member below all members. *)
Lemma fold_Rmin_spec (l : list R) :
  forall x : R,
    In (fold_left Rmin l x) (x :: l) /\
    Forall (fun a => fold_left Rmin l x <= a) (x :: l).
Proof.
  induction l as [| a rest IH]; intros x.
  - cbn. split; [now left |]. constructor; [lra | constructor].
  - cbn [fold_left]. destruct (IH (Rmin x a)) as [Hin Hall].
    inversion Hall as [| ? ? Hhead Htail]; subst.
    pose proof (Rmin_l x a). pose proof (Rmin_r x a).
    split.
    + destruct Hin as [Hin | Hin].
      * rewrite <- Hin. unfold Rmin. destruct (Rle_dec x a);
          [now left | right; now left].
      * right. now right.
    + constructor; [lra |]. constructor; [lra | exact Htail].
Qed.

(** [max] of a non-empty list: a member above all members. *)
Lemma fold_Rmax_spec (l : list R) :
  forall x : R,
    In (fold_left Rmax l x) (x :: l) /\
    Forall (fun a => a <= fold_left Rmax l x) (x :: l).
Proof.
  induction l as [| a rest IH]; intros x.
  - cbn. split; [now left |]. constructor; [lra | constructor].
  - cbn [fold_left]. destruct (IH (Rmax x a)) as [Hin Hall].
    inversion Hall as [| ? ? Hhead Htail]; subst.
    pose proof (Rmax_l x a). pose proof (Rmax_r x a).
    split.
    + destruct Hin as [Hin | Hin].
      * rewrite <- Hin. unfold Rmax. destruct (Rle_dec x a);
          [right; now left | now left].
      * right. now right.
    + constructor; [lra |]. constructor; [lra | exact Htail].
Qed.

(** What a calibration run that collects at least 50 angles returns and
    stores. *)
Lemma calibrate_user_enough (captures : list Capture) (file : BaselineFile)
    (angles : list R) :
  calibrate_collect (PostureAnalyzer.__init__ None) captures []
  = Return angles ->
  (50 <= length angles)%nat ->
  exists lo hi,
    min angles = Return lo /\ max angles = Return hi /\
    calibrate_user captures file
    = (Return (Some {| good_angle := sum angles / INR (length angles);
                       tolerance := 10;
                       samples := length angles;
                       min_angle := lo;
                       max_angle := hi |}),
       Json {| good_angle := sum angles / INR (length angles);
               tolerance := 10;
               samples := length angles;
               min_angle := lo;
               max_angle := hi |}) /\
    In lo angles /\ In hi angles /\
    Forall (fun a => lo <= a <= hi) angles.
Proof.
  intros Hc Hlen. unfold calibrate_user. rewrite Hc.
  apply Nat.ltb_ge in Hlen. rewrite Hlen.
  destruct angles as [| x rest]; [cbn in Hlen; discriminate |].
  destruct (fold_Rmin_spec rest x) as [Hmin_in Hmin_all].
  destruct (fold_Rmax_spec rest x) as [Hmax_in Hmax_all].
  exists (fold_left Rmin rest x), (fold_left Rmax rest x).
  cbn [min max]. repeat split; try assumption.
  rewrite Forall_forall in *. intros a Ha. split; auto.
Qed.

(** A baseline returned by [calibrate_user] has tolerance 10, a sample
    count of at least 50 and at most the number of loop iterations, and
    0 <= min_angle <= max_angle <= 180. *)
Theorem calibrate_user_baseline_bounds (captures : list Capture)
    (file : BaselineFile) :
  match fst (calibrate_user captures file) with
  | Return (Some b) =>
      tolerance b = 10 /\
      (50 <= samples b <= length captures)%nat /\
      0 <= min_angle b /\
      min_angle b <= max_angle b /\
      max_angle b <= 180
  | Return None | Raise _ => True
  end.
Proof.
  pose proof (calibrate_collect_range (PostureAnalyzer.__init__ None)
                captures [] (Forall_nil _)) as Hr.
  destruct (calibrate_collect (PostureAnalyzer.__init__ None) captures [])
    as [angles | e] eqn:Hc.
  - destruct Hr as [Hrange Hcount].
    destruct (Nat.lt_ge_cases (length angles) 50) as [Hlt | Hge].
    + unfold calibrate_user. rewrite Hc.
      apply Nat.ltb_lt in Hlt. now rewrite Hlt.
    + destruct (calibrate_user_enough captures file angles Hc Hge)
        as (lo & hi & _ & _ & E & Hlo & Hhi & Hall).
      rewrite E. cbn [fst tolerance samples min_angle max_angle].
      rewrite Forall_forall in Hrange, Hall.
      pose proof (Hrange lo Hlo) as [Hlo0 _].
      pose proof (Hrange hi Hhi) as [_ Hhi180].
      pose proof (Hall lo Hlo) as [_ Hlohi].
      cbn [length] in Hcount.
      repeat split; try assumption; try reflexivity; lia.
  - unfold calibrate_user. now rewrite Hc.
Qed.

(** The baseline of a run that collects at least 50 angles: [good_angle]
    is their arithmetic mean, [samples] their number, and [min_angle] and
    [max_angle] are collected angles that bound all of them. *)
Theorem calibrate_user_statistics (captures : list Capture)
    (file : BaselineFile) (angles : list R) :
  calibrate_collect (PostureAnalyzer.__init__ None) captures []
  = Return angles ->
  (50 <= length angles)%nat ->
  exists b,
    calibrate_user captures file = (Return (Some b), Json b) /\
    good_angle b = sum angles / INR (length angles) /\
    samples b = length angles /\
    In (min_angle b) angles /\
    In (max_angle b) angles /\
    Forall (fun a => min_angle b <= a <= max_angle b) angles.
Proof.
  intros Hc Hlen.
  destruct (calibrate_user_enough captures file angles Hc Hlen)
    as (lo & hi & _ & _ & E & Hlo & Hhi & Hall).
  eexists. split; [exact E |]. cbn. repeat split; assumption.
Qed.

Lemma calibrate_user_statistics_witness :
  let p := {| mp.x := 1 / 2; mp.y := 1 / 2; mp.z := 0;
              mp.visibility := 1 |} in
  let pl := {| mp.landmark := repeat p 24 |} in
  let captures := repeat (Frame (Some pl) false) 50 in
  let angles := repeat (_calculate_angle p p p) 50 in
  calibrate_collect (PostureAnalyzer.__init__ None) captures []
  = Return angles /\
  (50 <= length angles)%nat /\
  exists b,
    calibrate_user captures Absent = (Return (Some b), Json b) /\
    samples b = 50%nat.
Proof.
  cbv zeta.
  set (p := {| mp.x := 1 / 2; mp.y := 1 / 2; mp.z := 0;
               mp.visibility := 1 |}).
  set (captures := repeat (Frame (Some {| mp.landmark := repeat p 24 |})
                             false) 50).
  set (angles := repeat (_calculate_angle p p p) 50).
  assert (Hc : calibrate_collect (PostureAnalyzer.__init__ None) captures []
               = Return angles) by reflexivity.
  assert (Hlen : (50 <= length angles)%nat).
  { unfold angles. rewrite repeat_length. apply Nat.le_refl. }
  split; [exact Hc |]. split; [exact Hlen |].
  destruct (calibrate_user_statistics captures Absent angles Hc Hlen)
    as (b & E & _ & Hs & _).
  exists b. split; [exact E |]. rewrite Hs. unfold angles.
  apply repeat_length.
Defined.
End CalibrationMore.

(* ================================================================== *)
(** * The loop of the single-file variant *)

Section SingleFileLoop.
Local Open Scope Q_scope.
Import initial_work.

Lemma round_0_1 : round 0 1 = 0%R.
Proof.
  unfold round. replace (0 * 10 ^ 1)%R with 0%R by ring.
  assert (E : Int_part 0 = 0%Z).
  { symmetry. apply Int_part_spec. lra. }
  unfold round_half_even. rewrite E.
  destruct (Rlt_dec (0 - 0) (1 / 2)) as [_ | H]; [| exfalso; lra].
  unfold Rdiv. ring.
Qed.

(** What one step of the alert tracking of the single-file loop does to
    [last_alert_time]. *)
Lemma track_bad_posture_cases (now : Q) (status : Status)
    (locals : option Q * option Q) :
  (snd (track_bad_posture now status locals) = false /\
   snd (fst (track_bad_posture now status locals)) = snd locals) \/
  (snd (track_bad_posture now status locals) = true /\
   snd (fst (track_bad_posture now status locals)) = Some now /\
   match snd locals with
   | Some last => Qle_bool (inject_Z Config.ALERT_COOLDOWN) (now - last)
                  = true
   | None => True
   end).
Proof.
  unfold track_bad_posture. destruct locals as [[start |] [last |]];
    destruct (Status_eqb status BAD); cbn [fst snd];
    try (left; split; reflexivity);
    (destruct (Qle_bool (now - start) _); cbn [negb];
     [left; split; reflexivity |]).
  - destruct (Qle_bool (now - last) (inject_Z Config.ALERT_COOLDOWN))
      eqn:E; cbn [negb]; [left; split; reflexivity |].
    right. repeat split. apply Qle_bool_iff.
    apply Qle_bool_false in E. lra.
  - right. repeat split.
Qed.

(** In the single-file loop too, over any sequence of ticks and from any
    state, two consecutive posture alerts are at least ALERT_COOLDOWN
    seconds apart. *)
Theorem track_bad_posture_spaced (ticks : list (Q * Status)) :
  forall locals : option Q * option Q,
    let r := run_ticks track_bad_posture ticks locals in
    spaced (inject_Z Config.ALERT_COOLDOWN)
      match snd locals with
      | Some last => last :: sent_times ticks (snd r)
      | None => sent_times ticks (snd r)
      end = true.
Proof.
  cbv zeta.
  induction ticks as [| [now status] rest IH]; intros locals.
  - cbn. destruct (snd locals); reflexivity.
  - cbn [run_ticks].
    pose proof (track_bad_posture_cases now status locals) as Hc.
    destruct (track_bad_posture now status locals) as [locals' sent].
    specialize (IH locals').
    destruct (run_ticks track_bad_posture rest locals') as [final flags].
    cbn [fst snd] in *.
    destruct Hc as [(Hs & Hl) | (Hs & Hl & Hcool)];
      subst sent; cbn [sent_times].
    + now rewrite <- Hl.
    + rewrite Hl in IH.
      destruct (snd locals) as [last |]; [| exact IH].
      cbn [spaced]. cbn [spaced] in IH. now rewrite Hcool, IH.
Qed.

(** In the single-file loop the break reminder does not depend on the
    detection: with or without a person in the frame it is sent exactly
    when more than BREAK_REMINDER_INTERVAL seconds have passed since
    [break_reminder_time], which then becomes the present instant.  An
    iteration without a person changes nothing else and sends no
    posture alert. *)
Theorem main_iteration_break (mp_pose : mp.PoseLandmark)
    (baseline : option Baseline) (now : Q)
    (pose_landmarks : option mp.PoseLandmarks) (l : Locals) :
  let due := negb (Qle_bool (now - break_reminder_time l)
                     (inject_Z Config.BREAK_REMINDER_INTERVAL)) in
  let r := main_iteration mp_pose baseline now pose_landmarks l in
  let idle := main_iteration mp_pose baseline now None l in
  snd (snd r) = due /\
  break_reminder_time (fst r)
  = (if due then now else break_reminder_time l) /\
  fst (snd idle) = false /\
  bad_posture_start (fst idle) = bad_posture_start l /\
  last_alert_time (fst idle) = last_alert_time l /\
  last_log_time (fst idle) = last_log_time l /\
  session_log (fst idle) = session_log l.
Proof.
  cbv zeta. unfold main_iteration.
  split; [| split].
  - destruct pose_landmarks as [pl |].
    + destruct (check_posture _ _ _) as [status angle].
      destruct (track_bad_posture _ _ _) as [[start last] alert].
      cbn [break_reminder_time].
      destruct (Qle_bool (now - break_reminder_time l) _); reflexivity.
    + destruct (Qle_bool (now - break_reminder_time l) _); reflexivity.
  - destruct pose_landmarks as [pl |].
    + destruct (check_posture _ _ _) as [status angle].
      destruct (track_bad_posture _ _ _) as [[start last] alert].
      cbn [break_reminder_time].
      destruct (Qle_bool (now - break_reminder_time l) _); reflexivity.
    + destruct (Qle_bool (now - break_reminder_time l) _); reflexivity.
  - destruct (Qle_bool (now - break_reminder_time l) _); cbn;
      repeat split.
Qed.

(** A frame whose landmark list lacks one of the three landmarks, in the
    single-file loop: no posture alert is sent, the bad-posture timer is
    cleared, and when more than LOG_INTERVAL seconds have passed since the
    last row the log receives a row with status UNKNOWN and angle 0. *)
Theorem main_iteration_missing_landmark (mp_pose : mp.PoseLandmark)
    (baseline : option Baseline) (now : Q) (pl : mp.PoseLandmarks)
    (l : Locals) :
  nth_error (mp.landmark pl) (mp.LEFT_EAR mp_pose) = None \/
  nth_error (mp.landmark pl) (mp.LEFT_SHOULDER mp_pose) = None \/
  nth_error (mp.landmark pl) (mp.LEFT_HIP mp_pose) = None ->
  let r := main_iteration mp_pose baseline now (Some pl) l in
  fst (snd r) = false /\
  bad_posture_start (fst r) = None /\
  last_alert_time (fst r) = last_alert_time l /\
  (inject_Z Config.LOG_INTERVAL < now - last_log_time l ->
   session_log (fst r)
   = session_log l ++ [ {| row_timestamp := now; row_status := UNKNOWN;
                           row_angle := 0%R |} ] /\
   last_log_time (fst r) = now) /\
  (now - last_log_time l <= inject_Z Config.LOG_INTERVAL ->
   session_log (fst r) = session_log l /\
   last_log_time (fst r) = last_log_time l).
Proof.
  intros Hmiss. cbv zeta. unfold main_iteration.
  rewrite (check_posture_missing _ mp_pose baseline Hmiss).
  unfold track_bad_posture. cbn [Status_eqb].
  rewrite round_0_1.
  destruct (Qle_bool (now - last_log_time l) (inject_Z Config.LOG_INTERVAL))
    eqn:Elog; cbn [negb];
    [apply Qle_bool_iff in Elog | apply Qle_bool_false in Elog];
    (destruct (Qle_bool (now - break_reminder_time _) _); cbn;
     repeat split; try reflexivity; exfalso; lra).
Qed.

Lemma main_iteration_missing_landmark_witness :
  let mp_pose := {| mp.LEFT_EAR := 7; mp.LEFT_SHOULDER := 11;
                    mp.LEFT_HIP := 23 |} in
  let pl := {| mp.landmark := [] |} in
  let l := {| bad_posture_start := Some 100; last_alert_time := None;
              last_log_time := 100; break_reminder_time := 0;
              session_log := [] |} in
  (nth_error (mp.landmark pl) (mp.LEFT_EAR mp_pose) = None \/
   nth_error (mp.landmark pl) (mp.LEFT_SHOULDER mp_pose) = None \/
   nth_error (mp.landmark pl) (mp.LEFT_HIP mp_pose) = None) /\
  inject_Z Config.LOG_INTERVAL < 106 - last_log_time l /\
  session_log (fst (main_iteration mp_pose None 106 (Some pl) l))
  = [ {| row_timestamp := 106; row_status := UNKNOWN; row_angle := 0%R |} ].
Proof.
  cbv zeta.
  set (mp_pose := {| mp.LEFT_EAR := 7; mp.LEFT_SHOULDER := 11;
                     mp.LEFT_HIP := 23 |}).
  set (pl := {| mp.landmark := [] |}).
  set (l := {| bad_posture_start := Some 100; last_alert_time := None;
               last_log_time := 100; break_reminder_time := 0;
               session_log := [] |}).
  assert (Hm : nth_error (mp.landmark pl) (mp.LEFT_EAR mp_pose) = None \/
               nth_error (mp.landmark pl) (mp.LEFT_SHOULDER mp_pose) = None \/
               nth_error (mp.landmark pl) (mp.LEFT_HIP mp_pose) = None)
    by (left; reflexivity).
  assert (Hlog : inject_Z Config.LOG_INTERVAL < 106 - last_log_time l)
    by reflexivity.
  split; [exact Hm |]. split; [exact Hlog |].
  exact (proj1 (proj1 (proj2 (proj2 (proj2
           (main_iteration_missing_landmark mp_pose None 106 pl l Hm))))
           Hlog)).
Defined.
End SingleFileLoop.
